(** * Server channels of code-server: a shallow embedding of [src/channel.ts]

    The file models the two IPC channels of [channel.ts]:
    - [FileProviderChannel], with its per-session [Watcher]s and the
      resource remapping function [transform];
    - [ExtensionEnvironmentChannel], with the extension scan pipeline
      [scanExtensions] and the command dispatcher [call].

    JavaScript control effects are explicit: a synchronous call yields a
    [Completion] (normal return or throw), an [async] function yields a settled
    promise, and mutable objects are threaded as state. *)

From Stdlib Require Import List String Ascii ZArith Lia Bool Arith PeanoNat.
From Stdlib Require Import Floats.PrimFloat.
Import ListNotations.

Set Warnings "-register-all".

Local Open Scope string_scope.
Local Open Scope list_scope.

(* ================================================================= *)
(** ** JavaScript runtime: errors, completions, promises, values *)

Module JS.

(** Exceptions that the modelled code raises or lets through. *)
Inductive JSError : Type :=
| TypeError (msg : string)     (* property access on undefined / null *)
| SyntaxError (msg : string)   (* JSON.parse on malformed text *)
| Error (msg : string).        (* new Error(msg) *)

(** Outcome of a synchronous call. *)
Inductive Completion (A : Type) : Type :=
| Return (a : A)
| Throw (e : JSError).
Arguments Return {A} a.
Arguments Throw {A} e.

Definition bind {A B} (c : Completion A) (k : A -> Completion B) : Completion B :=
  match c with
  | Return a => k a
  | Throw e => Throw e
  end.

(** [try { body } catch (error) { handler }]. *)
Definition try_catch {A} (body : Completion A) (handler : JSError -> Completion A)
  : Completion A :=
  match body with
  | Return a => Return a
  | Throw e => handler e
  end.

(** State of a settled promise. *)
Inductive Settled (A : Type) : Type :=
| Fulfilled (a : A)
| Rejected (e : JSError).
Arguments Fulfilled {A} a.
Arguments Rejected {A} e.

(** An [async] function turns the completion of its body into a promise:
    a throw inside the body is a rejection, never a synchronous throw. *)
Definition async {A} (body : Completion A) : Settled A :=
  match body with
  | Return a => Fulfilled a
  | Throw e => Rejected e
  end.

(** The value of a fulfilled promise, forgetting the rejection reason. *)
Definition fulfilled_value {A} (s : Settled A) : option A :=
  match s with
  | Fulfilled a => Some a
  | Rejected _ => None
  end.

(** JavaScript values as produced by [JSON.parse], plus [undefined], which
    is what reading a missing property gives. *)
Inductive JSValue : Type :=
| JUndefined
| JNull
| JBool (b : bool)
| JNum (x : float)
| JStr (s : string)
| JArr (elems : list JSValue)
| JObj (props : list (string * JSValue)).

(** [ToBoolean]: the falsy values are undefined, null, false, +0, -0, NaN
    and the empty string. *)
Definition ToBoolean (v : JSValue) : bool :=
  match v with
  | JUndefined | JNull => false
  | JBool b => b
  | JNum x => negb (PrimFloat.eqb x PrimFloat.zero || PrimFloat.is_nan x)
  | JStr s => negb (s =? EmptyString)
  | JArr _ | JObj _ => true
  end.

Fixpoint own_property (name : string) (props : list (string * JSValue)) : JSValue :=
  match props with
  | [] => JUndefined
  | (k, v) :: rest => if k =? name then v else own_property name rest
  end.

(** [v.requestResourcePath]: reading a property of undefined or null throws
    a TypeError; primitives, arrays and objects without the property give
    undefined. *)
Definition get_requestResourcePath (v : JSValue) : Completion JSValue :=
  match v with
  | JUndefined =>
      Throw (TypeError "Cannot read property 'requestResourcePath' of undefined")
  | JNull =>
      Throw (TypeError "Cannot read property 'requestResourcePath' of null")
  | JObj props => Return (own_property "requestResourcePath" props)
  | JBool _ | JNum _ | JStr _ | JArr _ => Return JUndefined
  end.

(** [s.indexOf(pat)]: position of the first occurrence, -1 when there is
    none. *)
Fixpoint indexOf_from (k : Z) (pat s : string) : Z :=
  if String.prefix pat s then k
  else match s with
       | EmptyString => (-1)%Z
       | String _ s' => indexOf_from (k + 1)%Z pat s'
       end.

Definition indexOf (s pat : string) : Z := indexOf_from 0%Z pat s.

Fixpoint strip_prefix (pat s : string) : option string :=
  match pat with
  | EmptyString => Some s
  | String a pat' =>
      match s with
      | EmptyString => None
      | String b s' => if Ascii.eqb a b then strip_prefix pat' s' else None
      end
  end.

(** [s.replace(/^pat/, '')] for a literal pattern anchored at the start:
    the leading occurrence is removed, any other string is unchanged. *)
Definition replace_leading (pat s : string) : string :=
  match strip_prefix pat s with
  | Some rest => rest
  | None => s
  end.

(** [s.toLowerCase()] on the ASCII letters. *)
Definition lower_ascii (c : ascii) : ascii :=
  let n := nat_of_ascii c in
  if Nat.leb 65 n && Nat.leb n 90 then ascii_of_nat (n + 32) else c.

Fixpoint toLowerCase (s : string) : string :=
  match s with
  | EmptyString => EmptyString
  | String c s' => String (lower_ascii c) (toLowerCase s')
  end.

End JS.

(* ================================================================= *)
(** ** The JavaScript [Map]: an insertion-ordered association list *)

Module JSMap.

Class KeyEq (K : Type) : Type := {
  keqb : K -> K -> bool;
  keqb_spec : forall a b : K, reflect (a = b) (keqb a b)
}.

#[global] Instance KeyEq_string : KeyEq string :=
  {| keqb := String.eqb; keqb_spec := String.eqb_spec |}.

#[global] Instance KeyEq_Z : KeyEq Z :=
  {| keqb := Z.eqb; keqb_spec := Z.eqb_spec |}.

Section Ops.
Context {K V : Type} `{KeyEq K}.

Definition t : Type := list (K * V).

Definition empty : t := [].

Fixpoint get (k : K) (m : t) : option V :=
  match m with
  | [] => None
  | (k', v) :: m' => if keqb k k' then Some v else get k m'
  end.

Definition has (k : K) (m : t) : bool :=
  match get k m with
  | Some _ => true
  | None => false
  end.

(** [m.set(k, v)]: an existing key keeps its position and takes the new
    value; a new key goes to the end. *)
Fixpoint set (k : K) (v : V) (m : t) : t :=
  match m with
  | [] => [(k, v)]
  | (k', v') :: m' =>
      if keqb k k' then (k', v) :: m' else (k', v') :: set k v m'
  end.

Definition delete (k : K) (m : t) : t :=
  filter (fun kv => negb (keqb k (fst kv))) m.

Definition keys (m : t) : list K := map fst m.

(** [Array.from(m.values())]: the values in insertion order of the keys. *)
Definition values (m : t) : list V := map snd m.

Definition clear (m : t) : t := [].

End Ops.

Arguments t : clear implicits.

End JSMap.

(* ================================================================= *)
(** ** Resources: [UriComponents] and [URI] *)

Module Uri.

Record UriComponents : Type := {
  scheme : string;
  authority : string;
  path : string;
  query : string;
  fragment : string
}.

(** The [URI] class is external; a URI is represented by the constructor
    call that built it. *)
Inductive URI : Type :=
| file (filePath : string)            (* URI.file(path) *)
| from (components : UriComponents).  (* URI.from(components) *)

End Uri.


(* ================================================================= *)
(** ** [IEnvironmentService]: the configured paths the channels read *)

Module Environment.

Record IEnvironmentService : Type := {
  appRoot : string;
  appSettingsHome : Uri.URI;
  machineSettingsHome : Uri.URI;
  logsPath : string;
  extensionsPath : string;
  globalStorageHome : string;
  userHome : string;
  userDataPath : string;
  builtinExtensionsPath : string;
  extraBuiltinExtensionPaths : list string;
  extraExtensionPaths : list string
}.

End Environment.

(* ================================================================= *)
(** ** [class Watcher extends DiskFileSystemProvider] *)

Module Watcher.
Import JS.

Record IWatchOptions : Type := {
  recursive : bool;
  excludes : list string
}.

(** The [IDisposable] that [DiskFileSystemProvider.watch] hands back.  Every
    call creates a new object; the record keeps what it watches and how many
    times its [dispose()] has run. *)
Record Disposable : Type := {
  watched : Uri.URI;
  options : IWatchOptions;
  dispose_calls : nat
}.

(** A [Watcher] object.  [watches] holds references into [disposables], the
    store of every disposable this provider has created (a reference is the
    position in the store).  [super_dispose_calls] counts the runs of the
    inherited [dispose()]. *)
Record t : Type := {
  watches : JSMap.t Z nat;
  disposables : list Disposable;
  super_dispose_calls : nat
}.

(** [new Watcher(logService)]. *)
Definition new : t :=
  {| watches := JSMap.empty; disposables := []; super_dispose_calls := 0 |}.

Definition run_dispose (d : Disposable) : Disposable :=
  {| watched := watched d; options := options d;
     dispose_calls := S (dispose_calls d) |}.

(** [d.dispose()] on the disposable that reference [h] points to. *)
Fixpoint dispose_at (h : nat) (ds : list Disposable) : list Disposable :=
  match ds with
  | [] => []
  | d :: ds' =>
      match h with
      | O => run_dispose d :: ds'
      | S h' => d :: dispose_at h' ds'
      end
  end.

(** [this.watch(resource, opts)], inherited: a fresh disposable. *)
Definition watch (resource : Uri.URI) (opts : IWatchOptions) (w : t) : nat * t :=
  (List.length (disposables w),
   {| watches := watches w;
      disposables := disposables w ++
        [{| watched := resource; options := opts; dispose_calls := 0 |}];
      super_dispose_calls := super_dispose_calls w |}).

(** [_watch(req, resource, opts)]:
    [this.watches.set(req, this.watch(resource, opts))]. *)
Definition _watch (req : Z) (resource : Uri.URI) (opts : IWatchOptions) (w : t) : t :=
  let (h, w') := watch resource opts w in
  {| watches := JSMap.set req h (watches w');
     disposables := disposables w';
     super_dispose_calls := super_dispose_calls w' |}.

(** [unwatch(req)]: [this.watches.get(req)!.dispose(); this.watches.delete(req)].
    The [!] is erased at run time: on a missing key [get] gives undefined and
    the call of [dispose] on it throws before anything is changed. *)
Definition unwatch (req : Z) (w : t) : Completion t :=
  match JSMap.get req (watches w) with
  | None => Throw (TypeError "Cannot read property 'dispose' of undefined")
  | Some h =>
      Return {| watches := JSMap.delete req (watches w);
                disposables := dispose_at h (disposables w);
                super_dispose_calls := super_dispose_calls w |}
  end.

(** [dispose()]: [this.watches.forEach((w) => w.dispose()); this.watches.clear();
    super.dispose()]. *)
Definition dispose (w : t) : t :=
  {| watches := JSMap.clear (watches w);
     disposables :=
       fold_left (fun ds h => dispose_at h ds) (JSMap.values (watches w))
                 (disposables w);
     super_dispose_calls := S (super_dispose_calls w) |}.

(** How many times the disposable behind reference [h] has been disposed. *)
Definition dispose_count (h : nat) (w : t) : option nat :=
  option_map dispose_calls (nth_error (disposables w) h).

(** The operations a caller can run on a [Watcher]. *)
Inductive Op : Type :=
| OpWatch (req : Z) (resource : Uri.URI) (opts : IWatchOptions)
| OpUnwatch (req : Z)
| OpDispose.

(** One operation; a throwing [unwatch] leaves the object as it was. *)
Definition step (w : t) (op : Op) : t :=
  match op with
  | OpWatch req resource opts => _watch req resource opts w
  | OpUnwatch req =>
      match unwatch req w with
      | Return w' => w'
      | Throw _ => w
      end
  | OpDispose => dispose w
  end.

Definition run (ops : list Op) (w : t) : t := fold_left step ops w.

(** Every stored reference points into the store, and no reference is
    stored twice. *)
Definition wf (w : t) : Prop :=
  (forall h, In h (JSMap.values (watches w)) -> h < List.length (disposables w))
  /\ NoDup (JSMap.values (watches w)).

End Watcher.

(* ================================================================= *)
(** ** [class FileProviderChannel] *)

Module FileProviderChannel.
Import JS.

(** External functions [transform] relies on.  [JSON_parse] may throw.
    The constructors of the [URI] class validate what they are given and
    throw when they refuse it: [URI_file_refusal] and [URI_from_refusal] give
    the error with which [URI.file] refuses a path and [URI.from] refuses
    components, if they do.  [URI_file_untyped] is [URI.file] applied to a
    value that is not a string (the parsed query is of type [any]). *)
Class Runtime : Type := {
  JSON_parse : string -> Completion JSValue;
  URI_file_untyped : JSValue -> Completion Uri.URI;
  URI_file_refusal : string -> option JSError;
  URI_from_refusal : Uri.UriComponents -> option JSError
}.

(** [URI.file(path)] on a string. *)
Definition URI_file `{Runtime} (path : string) : Completion Uri.URI :=
  match URI_file_refusal path with
  | Some e => Throw e
  | None => Return (Uri.file path)
  end.

(** [URI.from(components)]. *)
Definition URI_from `{Runtime} (components : Uri.UriComponents)
  : Completion Uri.URI :=
  match URI_from_refusal components with
  | Some e => Throw e
  | None => Return (Uri.from components)
  end.

(** [URI.file(v)] on the value read from the parsed query. *)
Definition URI_file_any `{Runtime} (v : JSValue) : Completion Uri.URI :=
  match v with
  | JStr s => URI_file s
  | _ => URI_file_untyped v
  end.

(** [transform(resource)].  The [try] block either returns from the function
    ([Some uri]) or completes and control carries on ([None]); the [catch]
    block is empty, and the final [URI.from(resource)] is outside the [try].
    In the static-asset branch [URI.file] receives the application root
    followed by the rest of the path, a path under the installation
    directory, which it is taken to accept. *)
Definition transform `{Runtime} (env : Environment.IEnvironmentService)
    (resource : Uri.UriComponents) : Completion Uri.URI :=
  if (indexOf (Uri.path resource) "/static" =? 0)%Z then
    Return (Uri.file (Environment.appRoot env
                      ++ replace_leading "/static" (Uri.path resource))%string)
  else if (Uri.path resource =? "/vscode-resource")
          && negb (Uri.query resource =? EmptyString) then
    bind
      (try_catch
         (bind (JSON_parse (Uri.query resource)) (fun query =>
          bind (get_requestResourcePath query) (fun requestResourcePath =>
          if ToBoolean requestResourcePath
          then bind (URI_file_any requestResourcePath) (fun u => Return (Some u))
          else Return None)))
         (fun _error => Return None))
      (fun returned =>
         match returned with
         | Some u => Return u
         | None => URI_from resource
         end)
  else URI_from resource.


(** The channel object: [watchers] maps a session to its [Watcher]. *)
Record t : Type := {
  watchers : JSMap.t string Watcher.t
}.

Definition new : t := {| watchers := JSMap.empty |}.

(** [onFirstListenerAdd] of the "filechange" emitter of [session]. *)
Definition onFirstListenerAdd (session : string) (c : t) : t :=
  {| watchers := JSMap.set session Watcher.new (watchers c) |}.

(** [onLastListenerRemove] of the "filechange" emitter of [session]:
    [this.watchers.get(session)!.dispose(); this.watchers.delete(session)].
    The result is the [Watcher] object as [dispose()] leaves it, which the
    channel no longer references, and the channel. *)
Definition onLastListenerRemove (session : string) (c : t)
  : Completion (Watcher.t * t) :=
  match JSMap.get session (watchers c) with
  | None => Throw (TypeError "Cannot read property 'dispose' of undefined")
  | Some w =>
      Return (Watcher.dispose w,
              {| watchers := JSMap.delete session (watchers c) |})
  end.

(** [private async watch(session, req, resource, opts)]. *)
Definition watch `{Runtime} (env : Environment.IEnvironmentService)
    (session : string) (req : Z) (resource : Uri.UriComponents)
    (opts : Watcher.IWatchOptions) (c : t) : Settled unit * t :=
  match JSMap.get session (watchers c) with
  | None => (Rejected (TypeError "Cannot read property '_watch' of undefined"), c)
  | Some w =>
      match transform env resource with
      | Throw e => (Rejected e, c)
      | Return uri =>
          (Fulfilled tt,
           {| watchers :=
                JSMap.set session (Watcher._watch req uri opts w) (watchers c) |})
      end
  end.

(** [private async unwatch(session, req)]. *)
Definition unwatch (session : string) (req : Z) (c : t) : Settled unit * t :=
  match JSMap.get session (watchers c) with
  | None => (Rejected (TypeError "Cannot read property 'unwatch' of undefined"), c)
  | Some w =>
      match Watcher.unwatch req w with
      | Throw e => (Rejected e, c)
      | Return w' => (Fulfilled tt, {| watchers := JSMap.set session w' (watchers c) |})
      end
  end.

(** [dispose()]: [this.watchers.forEach((w) => w.dispose()); this.watchers.clear()].
    The result is the [Watcher] objects as [dispose()] leaves them, in the
    order of the map, and the channel. *)
Definition dispose (c : t) : list Watcher.t * t :=
  (map Watcher.dispose (JSMap.values (watchers c)),
   {| watchers := JSMap.clear (watchers c) |}).

End FileProviderChannel.

(* ================================================================= *)
(** ** [class ExtensionEnvironmentChannel] *)

Module ExtensionEnvironmentChannel.
Import JS.

(** A promise together with the instant at which it settles.  Instants order
    the completions of the concurrent scan tasks. *)
Record Promise (A : Type) : Type := {
  settled_at : nat;
  state : Settled A
}.
Arguments settled_at {A} p.
Arguments state {A} p.

(** The earliest rejection among [ps]: its instant and reason.  Of two
    rejections at the same instant the one earlier in the list counts. *)
Fixpoint first_rejection {A} (ps : list (Promise A)) : option (nat * JSError) :=
  match ps with
  | [] => None
  | p :: ps' =>
      match state p with
      | Fulfilled _ => first_rejection ps'
      | Rejected e =>
          match first_rejection ps' with
          | Some (t, e') =>
              if Nat.ltb t (settled_at p) then Some (t, e') else Some (settled_at p, e)
          | None => Some (settled_at p, e)
          end
      end
  end.

Fixpoint fulfilled_values {A} (ps : list (Promise A)) : list A :=
  match ps with
  | [] => []
  | p :: ps' =>
      match state p with
      | Fulfilled a => a :: fulfilled_values ps'
      | Rejected _ => fulfilled_values ps'
      end
  end.

Definition last_settled {A} (ps : list (Promise A)) : nat :=
  fold_right (fun p t => Nat.max (settled_at p) t) 0 ps.

(** [Promise.all(ps)]: rejected with the reason of the first promise to
    reject, as soon as it does; otherwise fulfilled, once every promise is,
    with the values in the order of [ps]. *)
Definition Promise_all {A} (ps : list (Promise A)) : Promise (list A) :=
  match first_rejection ps with
  | Some (t, e) => {| settled_at := t; state := Rejected e |}
  | None => {| settled_at := last_settled ps; state := Fulfilled (fulfilled_values ps) |}
  end.

Record ExtensionIdentifier : Type := {
  value : string
}.

(** [extensionLocation] is a URI of which only [fsPath] is read. *)
Record Location : Type := {
  fsPath : string
}.

Record IExtensionDescription : Type := {
  identifier : ExtensionIdentifier;
  extensionLocation : Location;
  isBuiltin : bool;
  isUnderDevelopment : bool;
  version : string
}.

(** Translations: extension id to the path of its translation file. *)
Definition Translations : Type := list (string * string).

Record ExtensionScannerInput : Type := {
  ourVersion : string;
  commit : string;
  input_locale : string;
  devMode : bool;
  absoluteFolderPath : string;
  input_isBuiltin : bool;
  input_isUnderDevelopment : bool;
  translations : Translations
}.

Inductive OperatingSystem : Type := Windows | Macintosh | Linux.

Record IRemoteAgentEnvironment : Type := {
  pid : Z;
  env_connectionToken : string;
  env_appRoot : Uri.URI;
  env_appSettingsHome : Uri.URI;
  settingsPath : Uri.URI;
  env_logsPath : Uri.URI;
  env_extensionsPath : Uri.URI;
  extensionHostLogsPath : Uri.URI;
  env_globalStorageHome : Uri.URI;
  env_userHome : Uri.URI;
  extensions : list IExtensionDescription;
  os : OperatingSystem
}.

Record IDiagnosticInfo : Type := {
  hostName : string
}.

(** What the channel imports from the platform and the process. *)
Class Platform : Type := {
  pkg_version : string;
  product_commit : string;
  VSCODE_DEV : option string;                    (* process.env.VSCODE_DEV *)
  process_pid : Z;
  OS : OperatingSystem;
  path_join : string -> string -> string;
  getTranslations : string -> string -> Promise Translations;
  ExtensionScanner_scanExtensions :
    ExtensionScannerInput -> Promise (list IExtensionDescription);
  ExtensionIdentifier_toKey : ExtensionIdentifier -> string;
  (* transformOutgoingURIs(obj, getUriTransformer(remoteAuthority)) *)
  transformOutgoingURIs : IRemoteAgentEnvironment -> string -> IRemoteAgentEnvironment
}.

(** [!!process.env.VSCODE_DEV]. *)
Definition isDev `{Platform} : bool :=
  match VSCODE_DEV with
  | Some s => negb (s =? EmptyString)
  | None => false
  end.

Section Scan.
Context `{Platform}.
Variable environment : Environment.IEnvironmentService.
Variable locale : string.

(** The scan of one root: the promise that the callback of [paths.map] in
    [scanMultiple] returns for [path]. *)
Definition scanTask (translations : Translations)
    (isBuiltin isUnderDevelopment : bool) (path : string)
  : Promise (list IExtensionDescription) :=
  ExtensionScanner_scanExtensions
    {| ourVersion := pkg_version;
       commit := product_commit;
       input_locale := locale;
       devMode := isDev;
       absoluteFolderPath := path;
       input_isBuiltin := isBuiltin;
       input_isUnderDevelopment := isUnderDevelopment;
       translations := translations |}.

Definition scanMultiple (translations : Translations)
    (isBuiltin isUnderDevelopment : bool) (paths : list string)
  : Promise (list (list IExtensionDescription)) :=
  Promise_all (map (scanTask translations isBuiltin isUnderDevelopment) paths).

(** [[builtinExtensionsPath, ...extraBuiltinExtensionPaths]]. *)
Definition builtinRoots : list string :=
  Environment.builtinExtensionsPath environment
    :: Environment.extraBuiltinExtensionPaths environment.

(** [[extensionsPath!, ...extraExtensionPaths]]. *)
Definition installedRoots : list string :=
  Environment.extensionsPath environment
    :: Environment.extraExtensionPaths environment.

Definition scanBuiltin (translations : Translations)
  : Promise (list (list IExtensionDescription)) :=
  scanMultiple translations true false builtinRoots.

Definition scanInstalled (translations : Translations)
  : Promise (list (list IExtensionDescription)) :=
  scanMultiple translations false true installedRoots.

(** The scan tasks of the two groups, in root-list order. *)
Definition builtinTasks (translations : Translations)
  : list (Promise (list IExtensionDescription)) :=
  map (scanTask translations true false) builtinRoots.

Definition installedTasks (translations : Translations)
  : list (Promise (list IExtensionDescription)) :=
  map (scanTask translations false true) installedRoots.

(** The warning of a collision. *)
Definition overridden (old new : IExtensionDescription) : string :=
  (fsPath (extensionLocation old) ++ " has been overridden "
     ++ fsPath (extensionLocation new))%string.

Definition toKey (extension : IExtensionDescription) : string :=
  ExtensionIdentifier_toKey (identifier extension).

(** Body of the innermost [forEach]: the accumulator is [uniqueExtensions]
    and the warnings logged so far.  [has(id)] holds exactly when [get(id)]
    is defined. *)
Definition merge_extension
    (acc : JSMap.t string IExtensionDescription * list string)
    (extension : IExtensionDescription)
  : JSMap.t string IExtensionDescription * list string :=
  let (uniqueExtensions, warnings) := acc in
  let id := toKey extension in
  let warnings' :=
    match JSMap.get id uniqueExtensions with
    | Some old => warnings ++ [overridden old extension]
    | None => warnings
    end in
  (JSMap.set id extension uniqueExtensions, warnings').

(** The three nested [forEach] loops over [allExtensions]. *)
Definition merge (allExtensions : list (list (list IExtensionDescription)))
  : JSMap.t string IExtensionDescription * list string :=
  fold_left
    (fun acc multipleExtensions =>
       fold_left
         (fun acc extensions => fold_left merge_extension extensions acc)
         multipleExtensions acc)
    allExtensions (JSMap.empty, []).

(** The merge of a flat sequence of descriptors, from the empty map. *)
Definition merge_sequence (sequence : list IExtensionDescription)
  : JSMap.t string IExtensionDescription * list string :=
  fold_left merge_extension sequence (JSMap.empty, []).

Definition has_key (k : string) (extension : IExtensionDescription) : bool :=
  toKey extension =? k.

(** The last descriptor of [sequence] whose identity key is [k]. *)
Definition last_with_key (k : string) (sequence : list IExtensionDescription)
  : option IExtensionDescription :=
  find (has_key k) (rev sequence).

(** The keys of [ks] in the order of their first occurrence. *)
Fixpoint first_occurrences (ks : list string) : list string :=
  match ks with
  | [] => []
  | k :: ks' => k :: filter (fun k' => negb (k' =? k)) (first_occurrences ks')
  end.

(** Every entry is stored under the key of its descriptor, and no key occurs
    twice. *)
Definition coherent (m : JSMap.t string IExtensionDescription) : Prop :=
  NoDup (JSMap.keys m) /\ forall k x, In (k, x) m -> k = toKey x.

(** [scanExtensions(locale)]: the promise returned and the warnings logged. *)
Definition scanExtensions : Promise (list IExtensionDescription) * list string :=
  let awaited := getTranslations locale (Environment.userDataPath environment) in
  match state awaited with
  | Rejected e => ({| settled_at := settled_at awaited; state := Rejected e |}, [])
  | Fulfilled translations =>
      let all := Promise_all [scanBuiltin translations; scanInstalled translations] in
      match state all with
      | Rejected e => ({| settled_at := settled_at all; state := Rejected e |}, [])
      | Fulfilled allExtensions =>
          let (uniqueExtensions, warnings) := merge allExtensions in
          ({| settled_at := settled_at all;
              state := Fulfilled (JSMap.values uniqueExtensions) |},
           warnings)
      end
  end.



End Scan.

(** The same platform with other settling instants for the translation
    loader and for every scan task; the outcomes are unchanged. *)
Definition retime (P : Platform)
    (translations_at : string -> string -> nat)
    (scan_at : ExtensionScannerInput -> nat) : Platform :=
  {| pkg_version := @pkg_version P;
     product_commit := @product_commit P;
     VSCODE_DEV := @VSCODE_DEV P;
     process_pid := @process_pid P;
     OS := @OS P;
     path_join := @path_join P;
     getTranslations := fun l d =>
       {| settled_at := translations_at l d;
          state := state (@getTranslations P l d) |};
     ExtensionScanner_scanExtensions := fun input =>
       {| settled_at := scan_at input;
          state := state (@ExtensionScanner_scanExtensions P input) |};
     ExtensionIdentifier_toKey := @ExtensionIdentifier_toKey P;
     transformOutgoingURIs := @transformOutgoingURIs P |}.

(** Modelled from the spec: the manifest scanner
    ([ExtensionScanner.scanExtensions], which [scanMultiple] calls and hands
    [this.log], and whose code is not part of channel.ts).  The scan of one
    root either finds a list of descriptors, possibly empty, or fails. *)
Inductive RootScan : Type :=
| Found (descriptors : list IExtensionDescription)
| Failed (reason : JSError).

(** Modelled from the spec: the scan of one root, with the instant at which
    it ends. *)
Record ScanRun : Type := {
  finished_at : nat;
  outcome : RootScan
}.

(** Modelled from the spec: what a scan task yields.  A failure is caught in
    the task and logged, and the task yields an empty list in lieu of
    failure. *)
Definition yielded (r : RootScan) : list IExtensionDescription :=
  match r with
  | Found descriptors => descriptors
  | Failed _ => []
  end.

(** Modelled from the spec: the promise of a scan task.  It is fulfilled
    whatever the outcome of the scan, with what the task yields. *)
Definition isolating_scanner (run : ExtensionScannerInput -> ScanRun)
    (input : ExtensionScannerInput) : Promise (list IExtensionDescription) :=
  {| settled_at := finished_at (run input);
     state := Fulfilled (yielded (outcome (run input))) |}.



(** The channel object. *)
Record t : Type := {
  environment : Environment.IEnvironmentService;
  connectionToken : string;
  telemetry_enabled : bool;        (* state of the telemetry service *)
  log_warnings : list string       (* what [this.log.warn] has received *)
}.

Record RemoteContext : Type := {
  remoteAuthority : string
}.

Record Args : Type := {
  language : string
}.

Inductive CallResult : Type :=
| EnvironmentData (data : IRemoteAgentEnvironment)
| DiagnosticInfo (info : IDiagnosticInfo)
| Done.

(** [private async getEnvironmentData(locale)]. *)
Definition getEnvironmentData `{Platform} (locale : string) (c : t)
  : Settled IRemoteAgentEnvironment * t :=
  let env := environment c in
  let (scanned, warnings) := scanExtensions env locale in
  let c' := {| environment := env; connectionToken := connectionToken c;
               telemetry_enabled := telemetry_enabled c;
               log_warnings := log_warnings c ++ warnings |} in
  match state scanned with
  | Rejected e => (Rejected e, c')
  | Fulfilled exts =>
      (Fulfilled
         {| pid := process_pid;
            env_connectionToken := connectionToken c;
            env_appRoot := Uri.file (Environment.appRoot env);
            env_appSettingsHome := Environment.appSettingsHome env;
            settingsPath := Environment.machineSettingsHome env;
            env_logsPath := Uri.file (Environment.logsPath env);
            env_extensionsPath := Uri.file (Environment.extensionsPath env);
            extensionHostLogsPath :=
              Uri.file (path_join (Environment.logsPath env) "extension-host");
            env_globalStorageHome := Uri.file (Environment.globalStorageHome env);
            env_userHome := Uri.file (Environment.userHome env);
            extensions := exts;
            os := OS |},
       c')
  end.

(** [private getDiagnosticInfo(): Promise<IDiagnosticInfo>]: not [async];
    the body is [throw new Error("not implemented")]. *)
Definition getDiagnosticInfo (c : t) : Completion (Settled IDiagnosticInfo) :=
  Throw (Error "not implemented").

(** [private async disableTelemetry()]. *)
Definition disableTelemetry (c : t) : Settled unit * t :=
  (Fulfilled tt,
   {| environment := environment c; connectionToken := connectionToken c;
      telemetry_enabled := false; log_warnings := log_warnings c |}).

(** [`"${command}"`]: the text between double quotes. *)
Definition quoted (s : string) : string :=
  let dq := String (Ascii.ascii_of_nat 34) EmptyString in
  (dq ++ s ++ dq)%string.

(** [public async call(context, command, args?)].  [args] is optional:
    reading [args.language] of a missing [args] throws. *)
Definition call `{Platform} (context : RemoteContext) (command : string)
    (args : option Args) (c : t) : Settled CallResult * t :=
  if command =? "getEnvironmentData" then
    match args with
    | None => (Rejected (TypeError "Cannot read property 'language' of undefined"), c)
    | Some a =>
        match getEnvironmentData (language a) c with
        | (Fulfilled data, c') =>
            (Fulfilled (EnvironmentData
                          (transformOutgoingURIs data (remoteAuthority context))), c')
        | (Rejected e, c') => (Rejected e, c')
        end
    end
  else if command =? "getDiagnosticInfo" then
    match getDiagnosticInfo c with
    | Throw e => (Rejected e, c)
    | Return (Fulfilled info) => (Fulfilled (DiagnosticInfo info), c)
    | Return (Rejected e) => (Rejected e, c)
    end
  else if command =? "disableTelemetry" then
    match disableTelemetry c with
    | (Fulfilled _, c') => (Fulfilled Done, c')
    | (Rejected e, c') => (Rejected e, c')
    end
  else
    (async (Throw (Error ("Invalid call " ++ quoted command)%string)), c).

End ExtensionEnvironmentChannel.

(* ================================================================= *)
(** ** A sample installation *)

Module Sample.
Import JS.

(** A parser that knows two texts and rejects every other one. *)
Definition parse (s : string) : Completion JSValue :=
  if s =? "{}" then Return (JObj [])
  else if s =? "null" then Return JNull
  else Throw (SyntaxError "Unexpected token").

(** The first character of a scheme: a letter, a digit or an underscore. *)
Definition scheme_start (c : ascii) : bool :=
  let n := nat_of_ascii c in
  (Nat.leb 97 n && Nat.leb n 122) || (Nat.leb 65 n && Nat.leb n 90)
  || (Nat.leb 48 n && Nat.leb n 57) || Nat.eqb n 95.

(** The other characters of a scheme: also [+], [.] and [-]. *)
Definition scheme_rest (c : ascii) : bool :=
  let n := nat_of_ascii c in
  scheme_start c || Nat.eqb n 43 || Nat.eqb n 46 || Nat.eqb n 45.

Fixpoint all_chars (f : ascii -> bool) (s : string) : bool :=
  match s with
  | EmptyString => true
  | String c s' => f c && all_chars f s'
  end.

Definition scheme_ok (scheme : string) : bool :=
  match scheme with
  | EmptyString => false
  | String c rest => scheme_start c && all_chars scheme_rest rest
  end.

(** The checks the [URI] constructor of VS Code runs on the components given
    to [URI.from]: an empty scheme counts as [file]; the scheme must be well
    formed; for the schemes [file], [http] and [https] a path gets its
    leading slash; with an authority, a path that is not empty must begin
    with a slash; without one, it must not begin with two slashes. *)
Definition from_refusal (components : Uri.UriComponents) : option JSError :=
  let scheme := if Uri.scheme components =? EmptyString then "file"
                else Uri.scheme components in
  let slashed := (scheme =? "file") || (scheme =? "http") || (scheme =? "https") in
  let path :=
    if slashed then
      if String.prefix "/" (Uri.path components) then Uri.path components
      else ("/" ++ Uri.path components)%string
    else Uri.path components in
  if negb (scheme_ok scheme) then
    Some (Error "[UriError]: Scheme contains illegal characters.")
  else if path =? EmptyString then None
  else if negb (Uri.authority components =? EmptyString) then
    if String.prefix "/" path then None
    else Some (Error "[UriError]: If a URI contains an authority component, then the path component must either be empty or begin with a slash character")
  else
    if String.prefix "//" path
    then Some (Error "[UriError]: If a URI does not contain an authority component, then the path cannot begin with two slash characters")
    else None.

(** The same checks on the path given to [URI.file], which takes what
    follows two leading slashes as authority: only a path that begins with
    four slashes is left with no authority and two leading slashes. *)
Definition file_refusal (path : string) : option JSError :=
  if String.prefix "////" path
  then Some (Error "[UriError]: If a URI does not contain an authority component, then the path cannot begin with two slash characters")
  else None.

(** [URI.file] on a value that is not a string: a boolean or an object is
    turned into text behind a slash; the other values are not formatted here
    and are refused. *)
Definition file_untyped (v : JSValue) : Completion Uri.URI :=
  match v with
  | JBool true => Return (Uri.file "/true")
  | JObj _ => Return (Uri.file "/[object Object]")
  | _ => Throw (TypeError "path.substring is not a function")
  end.

Definition runtime : FileProviderChannel.Runtime :=
  {| FileProviderChannel.JSON_parse := parse;
     FileProviderChannel.URI_file_untyped := file_untyped;
     FileProviderChannel.URI_file_refusal := file_refusal;
     FileProviderChannel.URI_from_refusal := from_refusal |}.

(** The query the webview service worker sends for a page. *)
Definition webview_query : string :=
  ("{" ++ ExtensionEnvironmentChannel.quoted "requestResourcePath" ++ ":"
       ++ ExtensionEnvironmentChannel.quoted "/home/coder/page.html" ++ "}")%string.

Definition webview_parse (s : string) : Completion JSValue :=
  if s =? webview_query
  then Return (JObj [("requestResourcePath", JStr "/home/coder/page.html")])
  else parse s.

Definition webview_runtime : FileProviderChannel.Runtime :=
  {| FileProviderChannel.JSON_parse := webview_parse;
     FileProviderChannel.URI_file_untyped := file_untyped;
     FileProviderChannel.URI_file_refusal := file_refusal;
     FileProviderChannel.URI_from_refusal := from_refusal |}.

Definition env : Environment.IEnvironmentService :=
  {| Environment.appRoot := "/opt/code-server";
     Environment.appSettingsHome := Uri.file "/home/coder/.local/User";
     Environment.machineSettingsHome := Uri.file "/home/coder/.local/Machine";
     Environment.logsPath := "/home/coder/.local/logs";
     Environment.extensionsPath := "/home/coder/extensions";
     Environment.globalStorageHome := "/home/coder/.local/globalStorage";
     Environment.userHome := "/home/coder";
     Environment.userDataPath := "/home/coder/.local";
     Environment.builtinExtensionsPath := "/opt/code-server/extensions";
     Environment.extraBuiltinExtensionPaths := ["/opt/extra-builtin"];
     Environment.extraExtensionPaths := ["/srv/shared-extensions"] |}.

(** An installation with one builtin root and one root of installed
    extensions, with no identity in common. *)
Definition quiet_env : Environment.IEnvironmentService :=
  {| Environment.appRoot := "/opt/code-server";
     Environment.appSettingsHome := Uri.file "/home/coder/.local/User";
     Environment.machineSettingsHome := Uri.file "/home/coder/.local/Machine";
     Environment.logsPath := "/home/coder/.local/logs";
     Environment.extensionsPath := "/srv/shared-extensions";
     Environment.globalStorageHome := "/home/coder/.local/globalStorage";
     Environment.userHome := "/home/coder";
     Environment.userDataPath := "/home/coder/.local";
     Environment.builtinExtensionsPath := "/opt/extra-builtin";
     Environment.extraBuiltinExtensionPaths := [];
     Environment.extraExtensionPaths := [] |}.

Definition component (p q : string) : Uri.UriComponents :=
  {| Uri.scheme := "vscode-remote"; Uri.authority := "localhost";
     Uri.path := p; Uri.query := q; Uri.fragment := EmptyString |}.

Definition opts : Watcher.IWatchOptions :=
  {| Watcher.recursive := true; Watcher.excludes := [] |}.

Definition extension (id location : string) (builtin : bool)
  : ExtensionEnvironmentChannel.IExtensionDescription :=
  {| ExtensionEnvironmentChannel.identifier :=
       {| ExtensionEnvironmentChannel.value := id |};
     ExtensionEnvironmentChannel.extensionLocation :=
       {| ExtensionEnvironmentChannel.fsPath := location |};
     ExtensionEnvironmentChannel.isBuiltin := builtin;
     ExtensionEnvironmentChannel.isUnderDevelopment := negb builtin;
     ExtensionEnvironmentChannel.version := "1.0.0" |}.

Definition builtin_ext := extension "pub.ext" "/opt/code-server/extensions/pub.ext" true.
Definition builtin_git := extension "vscode.git" "/opt/code-server/extensions/git" true.
Definition extra_theme := extension "acme.theme" "/opt/extra-builtin/theme" true.
Definition installed_ext := extension "Pub.Ext" "/home/coder/extensions/pub.ext" false.
Definition shared_lint := extension "acme.lint" "/srv/shared-extensions/lint" false.

(** The scans of four roots.  With [broken], the scan of the user's
    extension directory fails. *)
Definition run (broken : bool)
    (input : ExtensionEnvironmentChannel.ExtensionScannerInput)
  : ExtensionEnvironmentChannel.ScanRun :=
  let root := ExtensionEnvironmentChannel.absoluteFolderPath input in
  if root =? "/opt/code-server/extensions" then
    {| ExtensionEnvironmentChannel.finished_at := 7;
       ExtensionEnvironmentChannel.outcome :=
         ExtensionEnvironmentChannel.Found [builtin_ext; builtin_git] |}
  else if root =? "/opt/extra-builtin" then
    {| ExtensionEnvironmentChannel.finished_at := 2;
       ExtensionEnvironmentChannel.outcome :=
         ExtensionEnvironmentChannel.Found [extra_theme] |}
  else if root =? "/home/coder/extensions" then
    if broken then
      {| ExtensionEnvironmentChannel.finished_at := 3;
         ExtensionEnvironmentChannel.outcome :=
           ExtensionEnvironmentChannel.Failed
             (Error "EACCES: permission denied, scandir") |}
    else
      {| ExtensionEnvironmentChannel.finished_at := 3;
         ExtensionEnvironmentChannel.outcome :=
           ExtensionEnvironmentChannel.Found [installed_ext] |}
  else if root =? "/srv/shared-extensions" then
    {| ExtensionEnvironmentChannel.finished_at := 1;
       ExtensionEnvironmentChannel.outcome :=
         ExtensionEnvironmentChannel.Found [shared_lint] |}
  else
    {| ExtensionEnvironmentChannel.finished_at := 0;
       ExtensionEnvironmentChannel.outcome := ExtensionEnvironmentChannel.Found [] |}.

(** The scanner over those roots: a failed scan yields an empty list. *)
Definition scanner (broken : bool)
    (input : ExtensionEnvironmentChannel.ExtensionScannerInput)
  : ExtensionEnvironmentChannel.Promise
      (list ExtensionEnvironmentChannel.IExtensionDescription) :=
  ExtensionEnvironmentChannel.isolating_scanner (run broken) input.

Definition platform (broken : bool) : ExtensionEnvironmentChannel.Platform :=
  {| ExtensionEnvironmentChannel.pkg_version := "2.0.0";
     ExtensionEnvironmentChannel.product_commit := "abcdef";
     ExtensionEnvironmentChannel.VSCODE_DEV := None;
     ExtensionEnvironmentChannel.process_pid := 4242%Z;
     ExtensionEnvironmentChannel.OS := ExtensionEnvironmentChannel.Linux;
     ExtensionEnvironmentChannel.path_join := fun a b => (a ++ "/" ++ b)%string;
     ExtensionEnvironmentChannel.getTranslations := fun _ _ =>
       {| ExtensionEnvironmentChannel.settled_at := 0;
          ExtensionEnvironmentChannel.state := Fulfilled [] |};
     ExtensionEnvironmentChannel.ExtensionScanner_scanExtensions := scanner broken;
     ExtensionEnvironmentChannel.ExtensionIdentifier_toKey := fun id =>
       toLowerCase (ExtensionEnvironmentChannel.value id);
     ExtensionEnvironmentChannel.transformOutgoingURIs := fun data _ => data |}.

Definition channel : ExtensionEnvironmentChannel.t :=
  {| ExtensionEnvironmentChannel.environment := env;
     ExtensionEnvironmentChannel.connectionToken := "token";
     ExtensionEnvironmentChannel.telemetry_enabled := true;
     ExtensionEnvironmentChannel.log_warnings := [] |}.

End Sample.

(* ================================================================= *)
(** * Properties *)

(** ** Strings *)

Section StringFacts.
Import JS.

Lemma indexOf_from_range (pat s : string) (k : Z) :
  indexOf_from k pat s = (-1)%Z \/ (k <= indexOf_from k pat s)%Z.
Proof.
  revert k. induction s as [|c s IH]; intro k; cbn [indexOf_from].
  - destruct (String.prefix pat EmptyString); [right; lia | left; reflexivity].
  - destruct (String.prefix pat (String c s)).
    + right; lia.
    + destruct (IH (k + 1)%Z) as [E | E]; [left; exact E | right; lia].
Qed.

(** [s.indexOf(pat) === 0] says exactly that [s] starts with [pat]. *)
Lemma indexOf_zero_prefix (s pat : string) :
  (indexOf s pat =? 0)%Z = String.prefix pat s.
Proof.
  unfold indexOf. destruct s as [|c s]; cbn [indexOf_from].
  - destruct (String.prefix pat EmptyString); reflexivity.
  - destruct (String.prefix pat (String c s)); [reflexivity|].
    change (0 + 1)%Z with 1%Z.
    destruct (indexOf_from_range pat s 1%Z) as [E | E].
    + rewrite E. reflexivity.
    + apply Z.eqb_neq. lia.
Qed.





End StringFacts.

(** ** [transform] *)

Section TransformFacts.
Import JS.
Context `{FileProviderChannel.Runtime}.
Variable env : Environment.IEnvironmentService.







End TransformFacts.

(** ** The insertion-ordered map *)

Section JSMapFacts.
Context {K V : Type} `{JSMap.KeyEq K}.
Implicit Types (m : JSMap.t K V) (k : K) (v : V).

Lemma keqb_refl k : JSMap.keqb k k = true.
Proof. destruct (JSMap.keqb_spec k k); [reflexivity | contradiction]. Qed.

Lemma keqb_neq k k' : k <> k' -> JSMap.keqb k k' = false.
Proof. intro N. destruct (JSMap.keqb_spec k k'); [contradiction | reflexivity]. Qed.

Lemma get_set_same k v m : JSMap.get k (JSMap.set k v m) = Some v.
Proof.
  induction m as [|[k' v'] m IH]; simpl.
  - rewrite keqb_refl. reflexivity.
  - destruct (JSMap.keqb_spec k k') as [->|N]; simpl.
    + rewrite keqb_refl. reflexivity.
    + rewrite (keqb_neq _ _ N). exact IH.
Qed.

Lemma get_set_other k k' v m :
  k' <> k -> JSMap.get k' (JSMap.set k v m) = JSMap.get k' m.
Proof.
  intro N. induction m as [|[k0 v0] m IH]; simpl.
  - rewrite (keqb_neq _ _ N). reflexivity.
  - destruct (JSMap.keqb_spec k k0) as [->|N0]; simpl.
    + rewrite (keqb_neq _ _ N). reflexivity.
    + destruct (JSMap.keqb k' k0); [reflexivity | exact IH].
Qed.

Lemma get_delete_same k m : JSMap.get k (JSMap.delete k m) = None.
Proof.
  induction m as [|[k' v'] m IH]; simpl; [reflexivity|].
  destruct (JSMap.keqb k k') eqn:E; simpl; [exact IH|].
  rewrite E. exact IH.
Qed.

Lemma get_In_values k v m : JSMap.get k m = Some v -> In v (JSMap.values m).
Proof.
  induction m as [|[k' v'] m IH]; simpl; [discriminate|].
  destruct (JSMap.keqb k k'); intro E.
  - left. congruence.
  - right. exact (IH E).
Qed.

Lemma values_set_In k v x m :
  In x (JSMap.values (JSMap.set k v m)) -> x = v \/ In x (JSMap.values m).
Proof.
  induction m as [|[k' v'] m IH]; simpl.
  - intros [E|[]]. left. congruence.
  - destruct (JSMap.keqb k k'); simpl.
    + intros [E|I]; [left; congruence | right; right; exact I].
    + intros [E|I]; [right; left; exact E|].
      destruct (IH I) as [E|I']; [left; exact E | right; right; exact I'].
Qed.

Lemma values_delete_In k x m :
  In x (JSMap.values (JSMap.delete k m)) -> In x (JSMap.values m).
Proof.
  induction m as [|[k' v'] m IH]; simpl; [tauto|].
  destruct (JSMap.keqb k k'); simpl.
  - intro I. right. exact (IH I).
  - intros [E|I]; [left; exact E | right; exact (IH I)].
Qed.

Lemma NoDup_values_set k v m :
  NoDup (JSMap.values m) -> ~ In v (JSMap.values m) ->
  NoDup (JSMap.values (JSMap.set k v m)).
Proof.
  induction m as [|[k' v'] m IH]; simpl; intros ND NI.
  - constructor; [intros [] | constructor].
  - inversion ND as [|? ? Hn Hd]; subst.
    destruct (JSMap.keqb k k'); simpl.
    + constructor; [tauto | exact Hd].
    + constructor.
      * intro I. destruct (values_set_In _ _ _ _ I) as [E|I']; [|exact (Hn I')].
        apply NI. left. exact E.
      * apply IH; [exact Hd | tauto].
Qed.

Lemma NoDup_values_delete k m :
  NoDup (JSMap.values m) -> NoDup (JSMap.values (JSMap.delete k m)).
Proof.
  induction m as [|[k' v'] m IH]; simpl; intro ND; [constructor|].
  inversion ND as [|? ? Hn Hd]; subst.
  destruct (JSMap.keqb k k'); simpl; [exact (IH Hd)|].
  constructor; [|exact (IH Hd)].
  intro I. exact (Hn (values_delete_In _ _ _ I)).
Qed.

(** Overwriting the entry of [k] drops the value it held, when no other key
    holds that value. *)
Lemma values_set_displaced k v old m :
  NoDup (JSMap.values m) -> JSMap.get k m = Some old -> v <> old ->
  ~ In old (JSMap.values (JSMap.set k v m)).
Proof.
  induction m as [|[k' v'] m IH]; simpl; intros ND G N; [discriminate|].
  inversion ND as [|? ? Hn Hd]; subst.
  destruct (JSMap.keqb k k'); simpl.
  - injection G as ->. intros [E|I]; [exact (N E) | exact (Hn I)].
  - intros [E|I].
    + subst v'. exact (Hn (get_In_values _ _ _ G)).
    + exact (IH Hd G N I).
Qed.

End JSMapFacts.

(** ** [Watcher] *)

Section WatcherFacts.
Import JS.

Lemma dispose_at_length h ds : List.length (Watcher.dispose_at h ds) = List.length ds.
Proof.
  revert h. induction ds as [|d ds IH]; intros [|h]; simpl; auto.
Qed.

Lemma dispose_at_same h ds :
  nth_error (Watcher.dispose_at h ds) h
  = option_map Watcher.run_dispose (nth_error ds h).
Proof.
  revert h. induction ds as [|d ds IH]; intros [|h]; simpl; auto.
Qed.

Lemma dispose_at_other h h' ds :
  h <> h' -> nth_error (Watcher.dispose_at h ds) h' = nth_error ds h'.
Proof.
  revert h h'. induction ds as [|d ds IH]; intros [|h] [|h'] N; simpl;
    try reflexivity; try contradiction.
  apply IH. congruence.
Qed.

Lemma dispose_all_length hs ds :
  List.length (fold_left (fun ds h => Watcher.dispose_at h ds) hs ds) = List.length ds.
Proof.
  revert ds. induction hs as [|h hs IH]; intro ds; simpl; [reflexivity|].
  rewrite IH. apply dispose_at_length.
Qed.

Lemma dispose_all_other hs h' ds :
  ~ In h' hs ->
  nth_error (fold_left (fun ds h => Watcher.dispose_at h ds) hs ds) h'
  = nth_error ds h'.
Proof.
  revert ds. induction hs as [|h hs IH]; intros ds NI; simpl; [reflexivity|].
  rewrite IH by (intro I; apply NI; right; exact I).
  apply dispose_at_other. intro E. apply NI. left. exact E.
Qed.

Lemma nth_error_snoc_other {A} (l : list A) (x : A) h :
  h <> List.length l -> nth_error (l ++ [x]) h = nth_error l h.
Proof.
  intro N. destruct (Nat.lt_ge_cases h (List.length l)) as [L|G].
  - apply nth_error_app1. exact L.
  - rewrite (proj2 (nth_error_None l h)) by exact G.
    apply nth_error_None. rewrite length_app. simpl. lia.
Qed.

Lemma nth_error_snoc_new {A} (l : list A) (x : A) :
  nth_error (l ++ [x]) (List.length l) = Some x.
Proof.
  rewrite nth_error_app2 by lia. rewrite Nat.sub_diag. reflexivity.
Qed.

Lemma wf_new : Watcher.wf Watcher.new.
Proof. split; [intros h [] | constructor]. Qed.

(** A disposable that exists and that [watches] does not reference stays
    unreferenced, and is not disposed, whatever operation runs next. *)
Lemma unreferenced_step (w : Watcher.t) (op : Watcher.Op) (h : nat) :
  Watcher.wf w ->
  h < List.length (Watcher.disposables w) ->
  ~ In h (JSMap.values (Watcher.watches w)) ->
  Watcher.wf (Watcher.step w op)
  /\ h < List.length (Watcher.disposables (Watcher.step w op))
  /\ ~ In h (JSMap.values (Watcher.watches (Watcher.step w op)))
  /\ Watcher.dispose_count h (Watcher.step w op) = Watcher.dispose_count h w.
Proof.
  intros [Hb Hn] Hl Hu. destruct op as [req resource opts | req | ]; simpl.
  - (* _watch *)
    unfold Watcher.wf, Watcher._watch, Watcher.dispose_count; simpl.
    assert (Hfresh : ~ In (List.length (Watcher.disposables w))
                          (JSMap.values (Watcher.watches w))).
    { intro I. specialize (Hb _ I). lia. }
    repeat split.
    + intros h' I. rewrite length_app; simpl.
      destruct (values_set_In _ _ _ _ I) as [->|I']; [lia|].
      specialize (Hb _ I'). lia.
    + apply NoDup_values_set; assumption.
    + rewrite length_app; simpl; lia.
    + intro I. destruct (values_set_In _ _ _ _ I) as [E|I']; [lia | exact (Hu I')].
    + rewrite nth_error_snoc_other by lia. reflexivity.
  - (* unwatch *)
    unfold Watcher.unwatch.
    destruct (JSMap.get req (Watcher.watches w)) as [h0|] eqn:G.
    + unfold Watcher.wf, Watcher.dispose_count; simpl.
      pose proof (get_In_values _ _ _ G) as I0.
      repeat split.
      * intros h' I. rewrite dispose_at_length.
        apply Hb. exact (values_delete_In _ _ _ I).
      * apply NoDup_values_delete. exact Hn.
      * rewrite dispose_at_length. exact Hl.
      * intro I. exact (Hu (values_delete_In _ _ _ I)).
      * rewrite dispose_at_other; [reflexivity|].
        intro E. subst h0. exact (Hu I0).
    + repeat split; assumption.
  - (* dispose *)
    unfold Watcher.wf, Watcher.dispose, Watcher.dispose_count; simpl.
    repeat split.
    + intros h' [].
    + constructor.
    + rewrite dispose_all_length. exact Hl.
    + intros [].
    + rewrite dispose_all_other by exact Hu. reflexivity.
Qed.

Lemma wf_step (w : Watcher.t) (op : Watcher.Op) :
  Watcher.wf w -> Watcher.wf (Watcher.step w op).
Proof.
  intros [Hb Hn]. destruct op as [req resource opts | req | ]; simpl.
  - unfold Watcher.wf, Watcher._watch; simpl. split.
    + intros h' I. rewrite length_app; simpl.
      destruct (values_set_In _ _ _ _ I) as [->|I']; [lia|].
      specialize (Hb _ I'). lia.
    + apply NoDup_values_set; [exact Hn|].
      intro I. specialize (Hb _ I). lia.
  - unfold Watcher.unwatch.
    destruct (JSMap.get req (Watcher.watches w)) as [h0|]; [|split; assumption].
    unfold Watcher.wf; simpl. split.
    + intros h' I. rewrite dispose_at_length.
      apply Hb. exact (values_delete_In _ _ _ I).
    + apply NoDup_values_delete. exact Hn.
  - unfold Watcher.wf; simpl. split; [intros h' [] | constructor].
Qed.

Lemma wf_run (ops : list Watcher.Op) (w : Watcher.t) :
  Watcher.wf w -> Watcher.wf (Watcher.run ops w).
Proof.
  unfold Watcher.run. revert w.
  induction ops as [|op ops IH]; intros w Hw; simpl; [exact Hw|].
  apply IH. apply wf_step. exact Hw.
Qed.

Lemma unreferenced_run (ops : list Watcher.Op) (w : Watcher.t) (h : nat) :
  Watcher.wf w ->
  h < List.length (Watcher.disposables w) ->
  ~ In h (JSMap.values (Watcher.watches w)) ->
  Watcher.dispose_count h (Watcher.run ops w) = Watcher.dispose_count h w.
Proof.
  unfold Watcher.run. revert w.
  induction ops as [|op ops IH]; intros w Hw Hl Hu; simpl; [reflexivity|].
  destruct (unreferenced_step w op h Hw Hl Hu) as (Hw' & Hl' & Hu' & E).
  rewrite (IH _ Hw' Hl' Hu'). exact E.
Qed.

End WatcherFacts.

(** ** [Promise.all] *)

Section PromiseFacts.
Import JS ExtensionEnvironmentChannel.
Context {A : Type}.
Implicit Types (ps qs : list (Promise A)).

Lemma first_rejection_Some ps t e :
  first_rejection ps = Some (t, e) ->
  exists p, In p ps /\ state p = Rejected e /\ settled_at p = t
            /\ forall p' e', In p' ps -> state p' = Rejected e' -> t <= settled_at p'.
Proof.
  revert t e. induction ps as [|p ps IH]; simpl; intros t e E; [discriminate|].
  destruct (state p) as [a|e0] eqn:Sp.
  - destruct (IH _ _ E) as (q & Iq & Sq & Tq & Mq).
    exists q. split; [right; exact Iq|]. split; [exact Sq|]. split; [exact Tq|].
    intros p' e' [<-|I'] S'; [congruence | eauto].
  - destruct (first_rejection ps) as [[t1 e1]|] eqn:F.
    + destruct (IH _ _ eq_refl) as (q & Iq & Sq & Tq & Mq).
      destruct (Nat.ltb_spec t1 (settled_at p)) as [L|G]; injection E as <- <-.
      * exists q. split; [right; exact Iq|]. split; [exact Sq|]. split; [exact Tq|].
        intros p' e' [<-|I'] S'; [lia | eauto].
      * exists p. split; [left; reflexivity|]. split; [exact Sp|]. split; [reflexivity|].
        intros p' e' [<-|I'] S'; [lia|].
        specialize (Mq _ _ I' S'). lia.
    + injection E as <- <-.
      exists p. split; [left; reflexivity|]. split; [exact Sp|]. split; [reflexivity|].
      intros p' e' [<-|I'] S'; [lia|].
      exfalso. clear IH. induction ps as [|q ps IHq]; [destruct I'|].
      simpl in F. destruct I' as [->|I'].
      * rewrite S' in F. destruct (first_rejection ps) as [[? ?]|];
          [destruct (Nat.ltb _ _)|]; discriminate.
      * destruct (state q); [exact (IHq F I')|].
        destruct (first_rejection ps) as [[? ?]|];
          [destruct (Nat.ltb _ _)|]; discriminate.
Qed.

Lemma first_rejection_None ps :
  first_rejection ps = None -> map state ps = map Fulfilled (fulfilled_values ps).
Proof.
  induction ps as [|p ps IH]; simpl; intro E; [reflexivity|].
  destruct (state p) as [a|e].
  - simpl. f_equal. exact (IH E).
  - destruct (first_rejection ps) as [[? ?]|]; [destruct (Nat.ltb _ _)|]; discriminate.
Qed.

Lemma first_rejection_In ps p e :
  In p ps -> state p = Rejected e -> first_rejection ps <> None.
Proof.
  intros I S E. apply first_rejection_None in E.
  assert (In (state p) (map state ps)) as I' by (apply in_map; exact I).
  rewrite E, S in I'. apply in_map_iff in I'. destruct I' as (? & ? & _). discriminate.
Qed.

Lemma all_fulfilled_values ps vs :
  map state ps = map Fulfilled vs ->
  first_rejection ps = None /\ fulfilled_values ps = vs.
Proof.
  revert vs. induction ps as [|p ps IH]; intros [|v vs] E; simpl in *;
    try discriminate; [split; reflexivity|].
  injection E as Ep Es. rewrite Ep. destruct (IH _ Es) as [-> ->]. split; reflexivity.
Qed.

Lemma Promise_all_fulfilled ps vs :
  map state ps = map Fulfilled vs ->
  Promise_all ps = {| settled_at := last_settled ps; state := Fulfilled vs |}.
Proof.
  intro E. unfold Promise_all. destruct (all_fulfilled_values _ _ E) as [-> ->].
  reflexivity.
Qed.

Lemma Promise_all_inv ps vs :
  state (Promise_all ps) = Fulfilled vs ->
  map state ps = map Fulfilled vs /\ settled_at (Promise_all ps) = last_settled ps.
Proof.
  unfold Promise_all. destruct (first_rejection ps) as [[t e]|] eqn:F; simpl;
    [discriminate|].
  intro E. injection E as <-. split; [exact (first_rejection_None _ F) | reflexivity].
Qed.

Lemma Promise_all_rejected ps e :
  state (Promise_all ps) = Rejected e ->
  exists p, In p ps /\ state p = Rejected e
            /\ settled_at p = settled_at (Promise_all ps)
            /\ forall p' e', In p' ps -> state p' = Rejected e' ->
                             settled_at p <= settled_at p'.
Proof.
  unfold Promise_all. destruct (first_rejection ps) as [[t e0]|] eqn:F; simpl;
    [|discriminate].
  intro E. injection E as <-.
  destruct (first_rejection_Some _ _ _ F) as (p & I & S & T & M).
  exists p. rewrite T. auto.
Qed.

Lemma last_settled_ge ps p : In p ps -> settled_at p <= last_settled ps.
Proof.
  induction ps as [|q ps IH]; simpl; [intros []|].
  intros [->|I]; [lia|]. specialize (IH I). lia.
Qed.

(** Whether [Promise.all] fulfils, and with what, depends on the outcomes of
    its promises only, not on the instants at which they settle. *)
Lemma Promise_all_value_respects ps qs :
  Forall2 (fun p q => fulfilled_value (state p) = fulfilled_value (state q)) ps qs ->
  fulfilled_value (state (Promise_all ps)) = fulfilled_value (state (Promise_all qs)).
Proof.
  intro R.
  assert ((first_rejection ps = None <-> first_rejection qs = None)
          /\ fulfilled_values ps = fulfilled_values qs) as [N V].
  { induction R as [|p q ps qs E R [IHn IHv]]; simpl; [tauto|].
    destruct (state p) as [a|e], (state q) as [b|e']; simpl in E; try discriminate.
    - injection E as ->. rewrite IHv. tauto.
    - split; [|exact IHv].
      destruct (first_rejection ps) as [[? ?]|], (first_rejection qs) as [[? ?]|];
        repeat destruct (Nat.ltb _ _); split; discriminate. }
  unfold Promise_all.
  destruct (first_rejection ps) as [[t e]|] eqn:Fp,
           (first_rejection qs) as [[t' e']|] eqn:Fq; simpl; try reflexivity.
  - destruct N as [_ N]. specialize (N eq_refl). discriminate.
  - destruct N as [N _]. specialize (N eq_refl). discriminate.
  - rewrite V. reflexivity.
Qed.

End PromiseFacts.

(** ** The merge of the scan results *)

Section MergeFacts.
Import JS ExtensionEnvironmentChannel.
Context `{Platform}.
Implicit Types (m : JSMap.t string IExtensionDescription)
               (l : list IExtensionDescription) (k : string)
               (x d : IExtensionDescription).

Lemma fold_left_concat {S B : Type} (f : S -> B -> S) (ls : list (list B)) (a : S) :
  fold_left (fun acc xs => fold_left f xs acc) ls a = fold_left f (List.concat ls) a.
Proof.
  revert a. induction ls as [|xs ls IH]; intro a; simpl; [reflexivity|].
  rewrite fold_left_app. apply IH.
Qed.

Lemma merge_flat (allExtensions : list (list (list IExtensionDescription))) :
  merge allExtensions = merge_sequence (List.concat (List.concat allExtensions)).
Proof.
  unfold merge, merge_sequence.
  generalize (@JSMap.empty string IExtensionDescription, @nil string).
  induction allExtensions as [|g gs IH]; intro acc; simpl; [reflexivity|].
  rewrite concat_app, fold_left_app, IH, fold_left_concat. reflexivity.
Qed.

Lemma merge_two_groups (builtin installed : list (list IExtensionDescription)) :
  merge [builtin; installed]
  = merge_sequence (List.concat builtin ++ List.concat installed).
Proof.
  rewrite merge_flat. simpl. rewrite app_nil_r, concat_app. reflexivity.
Qed.

Lemma merge_sequence_snoc l x :
  merge_sequence (l ++ [x]) = merge_extension (merge_sequence l) x.
Proof. unfold merge_sequence. rewrite fold_left_app. reflexivity. Qed.

Lemma last_with_key_snoc k l x :
  last_with_key k (l ++ [x]) = if has_key k x then Some x else last_with_key k l.
Proof. unfold last_with_key. rewrite rev_app_distr. reflexivity. Qed.

Lemma last_with_key_In k l d :
  last_with_key k l = Some d -> In d l /\ toKey d = k.
Proof.
  unfold last_with_key. intro F. apply find_some in F. destruct F as [I E].
  split; [apply in_rev; exact I | apply String.eqb_eq; exact E].
Qed.

Lemma last_with_key_exists k l x :
  In x l -> toKey x = k -> exists d, last_with_key k l = Some d.
Proof.
  intros I E. unfold last_with_key.
  destruct (find (has_key k) (rev l)) as [d|] eqn:F; [eauto|].
  exfalso. assert (N : has_key k x = false).
  { apply (find_none _ _ F). apply in_rev in I. exact I. }
  unfold has_key in N. rewrite E, String.eqb_refl in N. discriminate.
Qed.





(** After the merge of a sequence, the map holds under each key the last
    descriptor of the sequence with that key. *)
Lemma get_merge_sequence k l :
  JSMap.get k (fst (merge_sequence l)) = last_with_key k l.
Proof.
  induction l as [|x l IH] using rev_ind; [reflexivity|].
  rewrite merge_sequence_snoc, last_with_key_snoc.
  destruct (merge_sequence l) as [m w]. simpl in *.
  unfold has_key. destruct (String.eqb_spec (toKey x) k) as [<-|N].
  - apply get_set_same.
  - rewrite get_set_other by congruence. exact IH.
Qed.

Lemma warnings_snoc l x :
  snd (merge_sequence (l ++ [x]))
  = snd (merge_sequence l)
    ++ match last_with_key (toKey x) l with
       | Some old => [overridden old x]
       | None => []
       end.
Proof.
  rewrite merge_sequence_snoc, <- get_merge_sequence.
  destruct (merge_sequence l) as [m w]. simpl.
  destruct (JSMap.get (toKey x) m); [reflexivity | rewrite app_nil_r; reflexivity].
Qed.

Lemma warnings_kept l1 l2 (msg : string) :
  In msg (snd (merge_sequence l1)) -> In msg (snd (merge_sequence (l1 ++ l2))).
Proof.
  intro I. induction l2 as [|x l2 IH] using rev_ind; [rewrite app_nil_r; exact I|].
  rewrite app_assoc, warnings_snoc. apply in_or_app. left. exact IH.
Qed.

(** A descriptor merged while its key is held logs the warning that names the
    holder and itself. *)
Lemma warning_logged l1 x l2 old :
  last_with_key (toKey x) l1 = Some old ->
  In (overridden old x) (snd (merge_sequence (l1 ++ x :: l2))).
Proof.
  intro E. change (l1 ++ x :: l2) with (l1 ++ [x] ++ l2). rewrite app_assoc.
  apply warnings_kept. rewrite warnings_snoc, E.
  apply in_or_app. right. left. reflexivity.
Qed.

Lemma set_In m k x k0 x0 :
  In (k0, x0) (JSMap.set k x m) -> (k0 = k /\ x0 = x) \/ In (k0, x0) m.
Proof.
  induction m as [|[k' x'] m IH]; simpl.
  - intros [E|[]]. left. injection E as <- <-. split; reflexivity.
  - destruct (String.eqb_spec k k') as [->|N]; simpl.
    + intros [E|I]; [left; injection E as <- <-; split; reflexivity | right; right; exact I].
    + intros [E|I]; [right; left; exact E|].
      destruct (IH I) as [E|I']; [left; exact E | right; right; exact I'].
Qed.

Lemma keys_set_In m k x k0 :
  In k0 (JSMap.keys (JSMap.set k x m)) -> k0 = k \/ In k0 (JSMap.keys m).
Proof.
  unfold JSMap.keys. intro I. apply in_map_iff in I. destruct I as ([k1 x1] & <- & I).
  destruct (set_In _ _ _ _ _ I) as [[-> _]|I']; [left; reflexivity|].
  right. apply in_map_iff. exists (k1, x1). split; [reflexivity | exact I'].
Qed.

Lemma NoDup_keys_set m k x :
  NoDup (JSMap.keys m) -> NoDup (JSMap.keys (JSMap.set k x m)).
Proof.
  induction m as [|[k' x'] m IH]; simpl; intro ND.
  - constructor; [intros [] | constructor].
  - inversion ND as [|? ? Hn Hd]; subst.
    destruct (String.eqb_spec k k') as [->|N]; simpl.
    + constructor; assumption.
    + constructor; [|exact (IH Hd)].
      intro I. destruct (keys_set_In _ _ _ _ I) as [E|I']; [congruence | exact (Hn I')].
Qed.

Lemma coherent_merge_sequence l : coherent (fst (merge_sequence l)).
Proof.
  induction l as [|x l IH] using rev_ind.
  - split; [constructor | intros k x []].
  - rewrite merge_sequence_snoc. destruct (merge_sequence l) as [m w].
    simpl in *. destruct IH as [ND C]. split.
    + apply NoDup_keys_set. exact ND.
    + intros k0 x0 I. destruct (set_In _ _ _ _ _ I) as [[-> ->]|I'];
        [reflexivity | exact (C _ _ I')].
Qed.

Lemma get_absent m k : ~ In k (JSMap.keys m) -> JSMap.get k m = None.
Proof.
  induction m as [|[k' x'] m IH]; simpl; intro NI; [reflexivity|].
  destruct (String.eqb_spec k k') as [->|N]; [exfalso; apply NI; left; reflexivity|].
  apply IH. intro I. apply NI. right. exact I.
Qed.

Lemma coherent_keys m : coherent m -> map toKey (JSMap.values m) = JSMap.keys m.
Proof.
  intros [_ C]. induction m as [|[k x] m IH]; simpl; [reflexivity|].
  rewrite IH by (intros k0 x0 I; apply C; right; exact I).
  rewrite <- (C k x) by (left; reflexivity). reflexivity.
Qed.

(** In a coherent map the descriptors with key [k] are the one stored under
    [k], if any. *)
Lemma coherent_filter m k :
  coherent m ->
  filter (has_key k) (JSMap.values m)
  = match JSMap.get k m with Some d => [d] | None => [] end.
Proof.
  intros [ND C]. induction m as [|[k' x'] m IH]; simpl; [reflexivity|].
  inversion ND as [|? ? Hn Hd]; subst.
  assert (C' : forall k0 x0, In (k0, x0) m -> k0 = toKey x0)
    by (intros k0 x0 I; apply C; right; exact I).
  specialize (IH Hd C').
  unfold has_key at 1. rewrite <- (C k' x') by (left; reflexivity).
  rewrite String.eqb_sym.
  destruct (String.eqb_spec k k') as [->|N].
  - rewrite IH, (get_absent _ _ Hn). reflexivity.
  - exact IH.
Qed.

Lemma coherent_In_get m x :
  coherent m -> In x (JSMap.values m) -> JSMap.get (toKey x) m = Some x.
Proof.
  intros Hc I.
  assert (In x (filter (has_key (toKey x)) (JSMap.values m))) as I'.
  { apply filter_In. split; [exact I|]. apply String.eqb_refl. }
  rewrite (coherent_filter _ _ Hc) in I'.
  destruct (JSMap.get (toKey x) m) as [d|]; [|destruct I'].
  destruct I' as [->|[]]. reflexivity.
Qed.

(** The merged list: one descriptor per key, the last of the sequence. *)
Lemma merged_values l :
  let merged := JSMap.values (fst (merge_sequence l)) in
  NoDup (map toKey merged)
  /\ (forall x, In x merged <-> last_with_key (toKey x) l = Some x)
  /\ (forall k, filter (has_key k) merged
                = match last_with_key k l with Some d => [d] | None => [] end).
Proof.
  pose proof (coherent_merge_sequence l) as Hc. simpl.
  split; [|split].
  - rewrite (coherent_keys _ Hc). exact (proj1 Hc).
  - intro x. rewrite <- get_merge_sequence. split.
    + apply coherent_In_get. exact Hc.
    + apply get_In_values.
  - intro k. rewrite (coherent_filter _ _ Hc), get_merge_sequence. reflexivity.
Qed.

End MergeFacts.

(** ** [scanExtensions] *)

Section ScanFacts.
Import JS ExtensionEnvironmentChannel.
Context `{Platform}.
Variable env : Environment.IEnvironmentService.
Variable locale : string.

Lemma scanBuiltin_tasks tr :
  scanBuiltin env locale tr = Promise_all (builtinTasks env locale tr).
Proof. reflexivity. Qed.

Lemma scanInstalled_tasks tr :
  scanInstalled env locale tr = Promise_all (installedTasks env locale tr).
Proof. reflexivity. Qed.

(** When the translations and both groups are fulfilled, the call fulfils
    with the values of the merged map. *)
Lemma scanExtensions_fulfilled tr builtin installed :
  state (getTranslations locale (Environment.userDataPath env)) = Fulfilled tr ->
  state (scanBuiltin env locale tr) = Fulfilled builtin ->
  state (scanInstalled env locale tr) = Fulfilled installed ->
  scanExtensions env locale
  = ({| settled_at :=
          last_settled [scanBuiltin env locale tr; scanInstalled env locale tr];
        state :=
          Fulfilled
            (JSMap.values
               (fst (merge_sequence (List.concat builtin ++ List.concat installed)))) |},
     snd (merge_sequence (List.concat builtin ++ List.concat installed))).
Proof.
  intros Ht Hb Hi. unfold scanExtensions. rewrite Ht.
  rewrite (Promise_all_fulfilled
             [scanBuiltin env locale tr; scanInstalled env locale tr]
             [builtin; installed])
    by (simpl; rewrite Hb, Hi; reflexivity).
  cbn [state settled_at]. rewrite merge_two_groups.
  destruct (merge_sequence (List.concat builtin ++ List.concat installed)).
  reflexivity.
Qed.

(** A rejected promise among those given to [Promise.all] makes it reject,
    no later than that promise settles. *)
Lemma Promise_all_rejects {A} (ps : list (Promise A)) p e :
  In p ps -> state p = Rejected e ->
  exists e', state (Promise_all ps) = Rejected e'
             /\ settled_at (Promise_all ps) <= settled_at p.
Proof.
  intros I S. pose proof (first_rejection_In _ _ _ I S) as N.
  unfold Promise_all. destruct (first_rejection ps) as [[t e']|] eqn:F;
    [|contradiction].
  destruct (first_rejection_Some _ _ _ F) as (q & _ & _ & _ & M).
  exists e'. split; [reflexivity|]. simpl. exact (M _ _ I S).
Qed.

(** When a scan task is rejected, the call is rejected with the reason of the
    task that was rejected first, and nothing is merged or logged. *)
Lemma scanExtensions_rejected tr failed e0 :
  state (getTranslations locale (Environment.userDataPath env)) = Fulfilled tr ->
  In failed (builtinTasks env locale tr ++ installedTasks env locale tr) ->
  state failed = Rejected e0 ->
  exists culprit e,
    In culprit (builtinTasks env locale tr ++ installedTasks env locale tr)
    /\ state culprit = Rejected e
    /\ (forall p' e',
          In p' (builtinTasks env locale tr ++ installedTasks env locale tr) ->
          state p' = Rejected e' -> settled_at culprit <= settled_at p')
    /\ scanExtensions env locale
       = ({| settled_at := settled_at culprit; state := Rejected e |}, []).
Proof.
  intros Ht If Sf.
  set (B := scanBuiltin env locale tr). set (I := scanInstalled env locale tr).
  assert (Hgroup : exists G eG, In G [B; I] /\ state G = Rejected eG).
  { apply in_app_or in If. destruct If as [Ib|Ii].
    - destruct (Promise_all_rejects _ _ _ Ib Sf) as (e' & S' & _).
      exists B, e'. split; [left; reflexivity | exact S'].
    - destruct (Promise_all_rejects _ _ _ Ii Sf) as (e' & S' & _).
      exists I, e'. split; [right; left; reflexivity | exact S']. }
  destruct Hgroup as (G0 & eG0 & IG0 & SG0).
  destruct (Promise_all_rejects _ _ _ IG0 SG0) as (e & Sall & _).
  destruct (Promise_all_rejected _ _ Sall) as (G & IG & SG & TG & MG).
  assert (Hin : exists tasks,
             G = Promise_all tasks
             /\ incl tasks (builtinTasks env locale tr ++ installedTasks env locale tr)).
  { destruct IG as [<-|[<-|[]]].
    - exists (builtinTasks env locale tr). split; [reflexivity|].
      apply incl_appl, incl_refl.
    - exists (installedTasks env locale tr). split; [reflexivity|].
      apply incl_appr, incl_refl. }
  destruct Hin as (tasks & EG & Hincl).
  rewrite EG in SG. destruct (Promise_all_rejected _ _ SG) as (c & Ic & Sc & Tc & Mc).
  exists c, e. split; [exact (Hincl _ Ic)|]. split; [exact Sc|]. split.
  - intros p' e' Ip' Sp'. rewrite Tc, <- EG.
    apply in_app_or in Ip'. destruct Ip' as [Ib|Ii].
    + destruct (Promise_all_rejects _ _ _ Ib Sp') as (e1 & S1 & L1).
      exact (Nat.le_trans _ _ _ (MG B e1 (or_introl eq_refl) S1) L1).
    + destruct (Promise_all_rejects _ _ _ Ii Sp') as (e1 & S1 & L1).
      exact (Nat.le_trans _ _ _ (MG I e1 (or_intror (or_introl eq_refl)) S1) L1).
  - unfold scanExtensions. rewrite Ht. fold B I. rewrite Sall.
    rewrite Tc, <- EG, TG. reflexivity.
Qed.

End ScanFacts.

(* ================================================================= *)
(** * The claims *)

Section Claims.
Import JS.





(** C3.  The merge order is fixed.  Whenever [scanExtensions] fulfils, every
    scan task of both groups had settled by the instant the merge ran, and
    the list returned is the merge of the flat sequence made of the builtin
    roots' results in root-list order followed by the installed roots'
    results in root-list order.  Hence the outcome does not depend on the
    instants at which the tasks settle: with any other settling instants for
    the same task outcomes, the call fulfils with the same list and logs the
    same warnings (or is rejected in both cases). *)
Theorem merge_order_deterministic
    (P : ExtensionEnvironmentChannel.Platform)
    (env : Environment.IEnvironmentService) (locale : string) :
  (forall merged,
      ExtensionEnvironmentChannel.state
        (fst (@ExtensionEnvironmentChannel.scanExtensions P env locale))
      = Fulfilled merged ->
      exists tr builtin installed,
        ExtensionEnvironmentChannel.state
          (@ExtensionEnvironmentChannel.getTranslations P locale
             (Environment.userDataPath env)) = Fulfilled tr
        /\ map ExtensionEnvironmentChannel.state
               (@ExtensionEnvironmentChannel.builtinTasks P env locale tr)
           = map Fulfilled builtin
        /\ map ExtensionEnvironmentChannel.state
               (@ExtensionEnvironmentChannel.installedTasks P env locale tr)
           = map Fulfilled installed
        /\ (forall task,
              In task (@ExtensionEnvironmentChannel.builtinTasks P env locale tr
                       ++ @ExtensionEnvironmentChannel.installedTasks P env locale tr) ->
              ExtensionEnvironmentChannel.settled_at task
              <= ExtensionEnvironmentChannel.settled_at
                   (fst (@ExtensionEnvironmentChannel.scanExtensions P env locale)))
        /\ merged
           = JSMap.values
               (fst (@ExtensionEnvironmentChannel.merge_sequence P
                       (List.concat builtin ++ List.concat installed)))
        /\ snd (@ExtensionEnvironmentChannel.scanExtensions P env locale)
           = snd (@ExtensionEnvironmentChannel.merge_sequence P
                    (List.concat builtin ++ List.concat installed)))
  /\ (forall translations_at scan_at,
        let P' := ExtensionEnvironmentChannel.retime P translations_at scan_at in
        fulfilled_value
          (ExtensionEnvironmentChannel.state
             (fst (@ExtensionEnvironmentChannel.scanExtensions P' env locale)))
        = fulfilled_value
            (ExtensionEnvironmentChannel.state
               (fst (@ExtensionEnvironmentChannel.scanExtensions P env locale)))
        /\ snd (@ExtensionEnvironmentChannel.scanExtensions P' env locale)
           = snd (@ExtensionEnvironmentChannel.scanExtensions P env locale)).
Proof.
  split.
  - intros merged Hm.
    assert (Hparts : exists tr builtin installed,
               ExtensionEnvironmentChannel.state
                 (@ExtensionEnvironmentChannel.getTranslations P locale
                    (Environment.userDataPath env)) = Fulfilled tr
               /\ ExtensionEnvironmentChannel.state
                    (@ExtensionEnvironmentChannel.scanBuiltin P env locale tr)
                  = Fulfilled builtin
               /\ ExtensionEnvironmentChannel.state
                    (@ExtensionEnvironmentChannel.scanInstalled P env locale tr)
                  = Fulfilled installed).
    { unfold ExtensionEnvironmentChannel.scanExtensions in Hm.
      destruct (ExtensionEnvironmentChannel.state
                  (@ExtensionEnvironmentChannel.getTranslations P locale
                     (Environment.userDataPath env))) as [tr|e] eqn:Ht;
        [|discriminate].
      exists tr.
      destruct (ExtensionEnvironmentChannel.state
                  (ExtensionEnvironmentChannel.Promise_all
                     [@ExtensionEnvironmentChannel.scanBuiltin P env locale tr;
                      @ExtensionEnvironmentChannel.scanInstalled P env locale tr]))
        as [all|e] eqn:Sall; [|discriminate].
      destruct (Promise_all_inv _ _ Sall) as [Hs _].
      destruct all as [|builtin [|installed [|? ?]]]; simpl in Hs; try discriminate.
      injection Hs as Hb Hi. exists builtin, installed. auto. }
    destruct Hparts as (tr & builtin & installed & Ht & Hb & Hi).
    exists tr, builtin, installed.
    rewrite (scanExtensions_fulfilled env locale tr builtin installed Ht Hb Hi) in *.
    cbn [fst snd ExtensionEnvironmentChannel.state
         ExtensionEnvironmentChannel.settled_at] in *.
    destruct (Promise_all_inv
                (@ExtensionEnvironmentChannel.builtinTasks P env locale tr) _ Hb)
      as [Hbs Tb].
    destruct (Promise_all_inv
                (@ExtensionEnvironmentChannel.installedTasks P env locale tr) _ Hi)
      as [His Ti].
    split; [exact Ht|]. split; [exact Hbs|]. split; [exact His|]. split.
    + intros task It. cbn [ExtensionEnvironmentChannel.last_settled fold_right].
      rewrite scanBuiltin_tasks, scanInstalled_tasks, Tb, Ti.
      apply in_app_or in It. destruct It as [I|I];
        apply last_settled_ge in I; lia.
    + split; [|reflexivity]. injection Hm as <-. reflexivity.
  - intros translations_at scan_at P'.
    unfold ExtensionEnvironmentChannel.scanExtensions.
    change (ExtensionEnvironmentChannel.state
              (@ExtensionEnvironmentChannel.getTranslations P' locale
                 (Environment.userDataPath env)))
      with (ExtensionEnvironmentChannel.state
              (@ExtensionEnvironmentChannel.getTranslations P locale
                 (Environment.userDataPath env))).
    destruct (ExtensionEnvironmentChannel.state
                (@ExtensionEnvironmentChannel.getTranslations P locale
                   (Environment.userDataPath env))) as [tr|e];
      [|split; reflexivity].
    assert (Hgroup : forall isBuiltin isUnderDevelopment paths,
               fulfilled_value
                 (ExtensionEnvironmentChannel.state
                    (@ExtensionEnvironmentChannel.scanMultiple P' locale tr
                       isBuiltin isUnderDevelopment paths))
               = fulfilled_value
                   (ExtensionEnvironmentChannel.state
                      (@ExtensionEnvironmentChannel.scanMultiple P locale tr
                         isBuiltin isUnderDevelopment paths))).
    { intros isBuiltin isUnderDevelopment paths.
      apply Promise_all_value_respects.
      induction paths as [|path paths IH]; constructor; [reflexivity | exact IH]. }
    assert (Hall : fulfilled_value
              (ExtensionEnvironmentChannel.state
                 (ExtensionEnvironmentChannel.Promise_all
                    [@ExtensionEnvironmentChannel.scanBuiltin P' env locale tr;
                     @ExtensionEnvironmentChannel.scanInstalled P' env locale tr]))
            = fulfilled_value
                (ExtensionEnvironmentChannel.state
                   (ExtensionEnvironmentChannel.Promise_all
                      [@ExtensionEnvironmentChannel.scanBuiltin P env locale tr;
                       @ExtensionEnvironmentChannel.scanInstalled P env locale tr]))).
    { apply Promise_all_value_respects.
      constructor; [apply Hgroup|]. constructor; [apply Hgroup | constructor]. }
    destruct (ExtensionEnvironmentChannel.state
                (ExtensionEnvironmentChannel.Promise_all
                   [@ExtensionEnvironmentChannel.scanBuiltin P' env locale tr;
                    @ExtensionEnvironmentChannel.scanInstalled P' env locale tr]))
      as [all'|e'];
    destruct (ExtensionEnvironmentChannel.state
                (ExtensionEnvironmentChannel.Promise_all
                   [@ExtensionEnvironmentChannel.scanBuiltin P env locale tr;
                    @ExtensionEnvironmentChannel.scanInstalled P env locale tr]))
      as [all|e]; simpl in Hall; try discriminate; [|split; reflexivity].
    injection Hall as ->.
    change (@ExtensionEnvironmentChannel.merge P' all)
      with (@ExtensionEnvironmentChannel.merge P all).
    destruct (@ExtensionEnvironmentChannel.merge P all). split; reflexivity.
Qed.

Lemma merge_order_deterministic_witness :
  (exists builtin installed,
      [Sample.installed_ext; Sample.builtin_git; Sample.extra_theme; Sample.shared_lint]
      = JSMap.values
          (fst (@ExtensionEnvironmentChannel.merge_sequence (Sample.platform false)
                  (List.concat builtin ++ List.concat installed))))
  /\ fulfilled_value
       (ExtensionEnvironmentChannel.state
          (fst (@ExtensionEnvironmentChannel.scanExtensions
                  (ExtensionEnvironmentChannel.retime (Sample.platform false)
                     (fun _ _ => 9)
                     (fun input =>
                        String.length
                          (ExtensionEnvironmentChannel.absoluteFolderPath input)))
                  Sample.env "en")))
     = Some [Sample.installed_ext; Sample.builtin_git; Sample.extra_theme;
             Sample.shared_lint].
Proof.
  split.
  - destruct (proj1 (merge_order_deterministic (Sample.platform false) Sample.env "en")
                    _ eq_refl)
      as (tr & builtin & installed & _ & _ & _ & _ & E & _).
    exists builtin, installed. exact E.
  - exact (proj1 (proj2 (merge_order_deterministic (Sample.platform false)
                           Sample.env "en") _ _)).
Defined.






(** C6.  [unwatch] fails whenever the session has no [Watcher] or the
    [Watcher] has no subscription under the request id: the promise of the
    call is rejected, with the TypeError of the call on undefined, and the
    channel is left as it was.  This is the only way it fails: the promise is
    fulfilled exactly when the session and the request id are both present.
    At the level of the [Watcher], [unwatch] of an absent request id throws
    that TypeError. *)
Theorem unwatch_fails_when_absent
    (session : string) (req : Z) (c : FileProviderChannel.t) :
  ((JSMap.get session (FileProviderChannel.watchers c) = None
    \/ exists w, JSMap.get session (FileProviderChannel.watchers c) = Some w
                 /\ JSMap.get req (Watcher.watches w) = None) ->
   exists msg,
     FileProviderChannel.unwatch session req c = (Rejected (TypeError msg), c))
  /\ (fst (FileProviderChannel.unwatch session req c) = Fulfilled tt
      <-> exists w h, JSMap.get session (FileProviderChannel.watchers c) = Some w
                      /\ JSMap.get req (Watcher.watches w) = Some h)
  /\ (forall w, JSMap.get req (Watcher.watches w) = None ->
                exists msg, Watcher.unwatch req w = Throw (TypeError msg)).
Proof.
  split; [|split].
  - unfold FileProviderChannel.unwatch. intros [Hs | (w & Hs & Hr)].
    + rewrite Hs. eexists. reflexivity.
    + rewrite Hs. unfold Watcher.unwatch. rewrite Hr. eexists. reflexivity.
  - unfold FileProviderChannel.unwatch, Watcher.unwatch.
    destruct (JSMap.get session (FileProviderChannel.watchers c)) as [w|].
    + destruct (JSMap.get req (Watcher.watches w)) as [h|] eqn:Hr; simpl.
      * split; [intros _; exists w, h; split; [reflexivity | exact Hr] | reflexivity].
      * split; [discriminate|]. intros (w' & h & E & Hr').
        injection E as <-. rewrite Hr in Hr'. discriminate.
    + simpl. split; [discriminate|]. intros (w & h & E & _). discriminate.
  - intros w Hr. unfold Watcher.unwatch. rewrite Hr. eexists. reflexivity.
Qed.

Lemma unwatch_fails_when_absent_witness :
  (exists msg,
      FileProviderChannel.unwatch "s1" 7 FileProviderChannel.new
      = (Rejected (TypeError msg), FileProviderChannel.new))
  /\ (exists msg,
         FileProviderChannel.unwatch "s1" 7
           (FileProviderChannel.onFirstListenerAdd "s1" FileProviderChannel.new)
         = (Rejected (TypeError msg),
            FileProviderChannel.onFirstListenerAdd "s1" FileProviderChannel.new)).
Proof.
  split.
  - exact (proj1 (unwatch_fails_when_absent "s1" 7 FileProviderChannel.new)
                 (or_introl eq_refl)).
  - exact (proj1 (unwatch_fails_when_absent "s1" 7
                    (FileProviderChannel.onFirstListenerAdd "s1" FileProviderChannel.new))
                 (or_intror (ex_intro _ Watcher.new (conj eq_refl eq_refl)))).
Defined.

(** C7.  On a session where request id [r] is not present, [_watch(r, ..)]
    creates one new disposable and stores it under [r]; the following
    [unwatch(r)] succeeds, leaves no entry for [r], and has run [dispose()] of
    that disposable exactly once, touching no other disposable.  From then on
    no operation of the session disposes it again. *)
Theorem watch_unwatch_releases_once
    (w : Watcher.t) (r : Z) (resource : Uri.URI) (opts : Watcher.IWatchOptions) :
  JSMap.get r (Watcher.watches w) = None ->
  let h := List.length (Watcher.disposables w) in
  let w1 := Watcher._watch r resource opts w in
  Watcher.dispose_count h w = None
  /\ JSMap.get r (Watcher.watches w1) = Some h
  /\ Watcher.dispose_count h w1 = Some 0
  /\ exists w2,
       Watcher.unwatch r w1 = Return w2
       /\ JSMap.get r (Watcher.watches w2) = None
       /\ Watcher.dispose_count h w2 = Some 1
       /\ (forall h', h' <> h ->
             Watcher.dispose_count h' w2 = Watcher.dispose_count h' w)
       /\ (Watcher.wf w ->
           forall ops, Watcher.dispose_count h (Watcher.run ops w2) = Some 1).
Proof.
  intros Hr h w1.
  assert (G1 : JSMap.get r (Watcher.watches w1) = Some h) by apply get_set_same.
  split; [|split; [exact G1|split]].
  - unfold Watcher.dispose_count.
    rewrite (proj2 (nth_error_None (Watcher.disposables w) h)) by (unfold h; lia).
    reflexivity.
  - unfold Watcher.dispose_count, w1, Watcher._watch; simpl.
    unfold h. rewrite nth_error_snoc_new. reflexivity.
  - unfold Watcher.unwatch. rewrite G1. eexists. split; [reflexivity|].
    assert (C1 : Watcher.dispose_count h
                   {| Watcher.watches := JSMap.delete r (Watcher.watches w1);
                      Watcher.disposables :=
                        Watcher.dispose_at h (Watcher.disposables w1);
                      Watcher.super_dispose_calls := Watcher.super_dispose_calls w1 |}
                 = Some 1).
    { unfold Watcher.dispose_count; simpl. rewrite dispose_at_same.
      unfold h. rewrite nth_error_snoc_new. reflexivity. }
    split; [apply get_delete_same|]. split; [exact C1|]. split.
    + intros h' N. unfold Watcher.dispose_count; simpl.
      rewrite dispose_at_other by congruence.
      rewrite nth_error_snoc_other by exact N. reflexivity.
    + intros Hw ops. rewrite <- C1.
      pose proof (wf_step _ (Watcher.OpWatch r resource opts) Hw) as Hw1.
      pose proof (wf_step _ (Watcher.OpUnwatch r) Hw1) as Hw2.
      simpl in Hw2. unfold Watcher.unwatch in Hw2. fold w1 in Hw2. rewrite G1 in Hw2.
      apply unreferenced_run; [exact Hw2 | |]; simpl.
      * rewrite dispose_at_length, length_app. simpl. unfold h. lia.
      * intro I. destruct Hw as [Hb _].
        assert (Hfresh : ~ In h (JSMap.values (Watcher.watches w))).
        { intro I'. specialize (Hb _ I'). unfold h in Hb. lia. }
        clear - I Hfresh. fold h in I. revert I Hfresh.
        generalize (Watcher.watches w) as m.
        induction m as [|[k v] m IH]; simpl.
        { rewrite Z.eqb_refl. simpl. tauto. }
        destruct (Z.eqb_spec r k) as [->|N]; simpl.
        { rewrite Z.eqb_refl. simpl. intros I Hf.
          apply Hf. right. exact (values_delete_In _ _ _ I). }
        { rewrite (proj2 (Z.eqb_neq r k) N). simpl.
          intros [E|I] Hf; [apply Hf; left; exact E|].
          apply IH; [exact I | intro I'; apply Hf; right; exact I']. }
Qed.

Lemma watch_unwatch_releases_once_witness :
  exists w2,
    Watcher.unwatch 1 (Watcher._watch 1 (Uri.file "/home/coder/project") Sample.opts
                         Watcher.new) = Return w2
    /\ JSMap.get 1%Z (Watcher.watches w2) = None
    /\ Watcher.dispose_count 0 w2 = Some 1
    /\ Watcher.dispose_count 0
         (Watcher.run [Watcher.OpUnwatch 1; Watcher.OpDispose] w2) = Some 1.
Proof.
  destruct (watch_unwatch_releases_once Watcher.new 1
              (Uri.file "/home/coder/project") Sample.opts eq_refl)
    as (_ & _ & _ & w2 & U & G & C & _ & F).
  exists w2. split; [exact U|]. split; [exact G|]. split; [exact C|].
  exact (F wf_new [Watcher.OpUnwatch 1; Watcher.OpDispose]).
Defined.

(** C8.  [getDiagnosticInfo] always fails: its body throws
    [Error("not implemented")], so the "getDiagnosticInfo" command is rejected
    with that error for every context, argument and channel state, and the
    channel is left as it was. *)
Theorem getDiagnosticInfo_always_fails
    (P : ExtensionEnvironmentChannel.Platform)
    (context : ExtensionEnvironmentChannel.RemoteContext)
    (args : option ExtensionEnvironmentChannel.Args)
    (c : ExtensionEnvironmentChannel.t) :
  ExtensionEnvironmentChannel.getDiagnosticInfo c = Throw (Error "not implemented")
  /\ @ExtensionEnvironmentChannel.call P context "getDiagnosticInfo" args c
     = (Rejected (Error "not implemented"), c)
  /\ fulfilled_value
       (fst (@ExtensionEnvironmentChannel.call P context "getDiagnosticInfo" args c))
     = None.
Proof. repeat split. Qed.

(** C9.  [_watch] with a request id that is already present stores the new
    disposable under that id without disposing the one it replaces; the
    replaced disposable is no longer referenced by the session, and no later
    [_watch], [unwatch] or [dispose] of the session disposes it. *)
Theorem rewatch_leaks_previous
    (w : Watcher.t) (r : Z) (previous : nat)
    (resource : Uri.URI) (opts : Watcher.IWatchOptions) :
  Watcher.wf w ->
  JSMap.get r (Watcher.watches w) = Some previous ->
  let w1 := Watcher._watch r resource opts w in
  JSMap.get r (Watcher.watches w1) = Some (List.length (Watcher.disposables w))
  /\ List.length (Watcher.disposables w) <> previous
  /\ ~ In previous (JSMap.values (Watcher.watches w1))
  /\ Watcher.dispose_count previous w1 = Watcher.dispose_count previous w
  /\ (exists n, Watcher.dispose_count previous w = Some n)
  /\ forall ops,
       Watcher.dispose_count previous (Watcher.run ops w1)
       = Watcher.dispose_count previous w.
Proof.
  intros Hw G w1.
  pose proof (get_In_values _ _ _ G) as Iprev.
  pose proof (proj1 Hw _ Iprev) as Lprev.
  assert (Hu : ~ In previous (JSMap.values (Watcher.watches w1))).
  { apply values_set_displaced; [exact (proj2 Hw) | exact G | lia]. }
  assert (Hc : Watcher.dispose_count previous w1 = Watcher.dispose_count previous w).
  { unfold Watcher.dispose_count, w1, Watcher._watch; simpl.
    rewrite nth_error_snoc_other by lia. reflexivity. }
  split; [apply get_set_same|]. split; [lia|]. split; [exact Hu|].
  split; [exact Hc|]. split.
  - unfold Watcher.dispose_count.
    destruct (nth_error (Watcher.disposables w) previous) as [d|] eqn:E.
    + eexists. reflexivity.
    + apply nth_error_None in E. lia.
  - intro ops. rewrite <- Hc. apply unreferenced_run.
    + exact (wf_step _ (Watcher.OpWatch r resource opts) Hw).
    + unfold w1, Watcher._watch; simpl. rewrite length_app. simpl. lia.
    + exact Hu.
Qed.

Lemma rewatch_leaks_previous_witness :
  let w := Watcher._watch 1 (Uri.file "/home/coder/a") Sample.opts Watcher.new in
  let w1 := Watcher._watch 1 (Uri.file "/home/coder/b") Sample.opts w in
  JSMap.get 1%Z (Watcher.watches w1) = Some 1
  /\ Watcher.dispose_count 0
       (Watcher.run [Watcher.OpUnwatch 1; Watcher.OpDispose] w1) = Some 0.
Proof.
  intros w w1.
  destruct (rewatch_leaks_previous w 1 0 (Uri.file "/home/coder/b") Sample.opts
              (wf_step _ (Watcher.OpWatch 1 (Uri.file "/home/coder/a") Sample.opts)
                       wf_new)
              eq_refl)
    as (G & _ & _ & _ & _ & F).
  split; [exact G|].
  exact (F [Watcher.OpUnwatch 1; Watcher.OpDispose]).
Defined.



End Claims.

(* ================================================================= *)
(** * Further properties of the channels *)

(** ** More on the map *)

Section JSMapMore.
Context {K V : Type} `{JSMap.KeyEq K}.
Implicit Types (m : JSMap.t K V) (k : K) (v : V).

Lemma get_delete_other k k' m :
  k' <> k -> JSMap.get k' (JSMap.delete k m) = JSMap.get k' m.
Proof.
  intro N. induction m as [|[k0 v0] m IH]; simpl; [reflexivity|].
  destruct (JSMap.keqb_spec k k0) as [<-|N0]; simpl.
  - rewrite (keqb_neq _ _ N). exact IH.
  - destruct (JSMap.keqb k' k0); [reflexivity | exact IH].
Qed.

Lemma get_None_delete k m : JSMap.get k m = None -> JSMap.delete k m = m.
Proof.
  induction m as [|[k0 v0] m IH]; simpl; [reflexivity|].
  destruct (JSMap.keqb k k0); [discriminate|]. simpl.
  intro G. rewrite (IH G). reflexivity.
Qed.

Lemma delete_set_absent k v m :
  JSMap.get k m = None -> JSMap.delete k (JSMap.set k v m) = m.
Proof.
  induction m as [|[k0 v0] m IH]; simpl.
  - intros _. rewrite keqb_refl. reflexivity.
  - destruct (JSMap.keqb k k0) eqn:E; [discriminate|].
    intro G. simpl. rewrite E. simpl. rewrite (IH G). reflexivity.
Qed.

Lemma get_injective k k' v m :
  NoDup (JSMap.values m) ->
  JSMap.get k m = Some v -> JSMap.get k' m = Some v -> k = k'.
Proof.
  induction m as [|[k0 v0] m IH]; simpl; intros ND G G'; [discriminate|].
  inversion ND as [|? ? Hn Hd]; subst.
  destruct (JSMap.keqb_spec k k0) as [->|N], (JSMap.keqb_spec k' k0) as [->|N'].
  - reflexivity.
  - injection G as ->. exfalso. exact (Hn (get_In_values _ _ _ G')).
  - injection G' as ->. exfalso. exact (Hn (get_In_values _ _ _ G)).
  - exact (IH Hd G G').
Qed.

Lemma values_delete_held k v m :
  NoDup (JSMap.values m) -> JSMap.get k m = Some v ->
  ~ In v (JSMap.values (JSMap.delete k m)).
Proof.
  induction m as [|[k0 v0] m IH]; simpl; intros ND G; [discriminate|].
  inversion ND as [|? ? Hn Hd]; subst.
  destruct (JSMap.keqb k k0); simpl.
  - injection G as ->. intro I. exact (Hn (values_delete_In _ _ _ I)).
  - intros [E|I].
    + subst v0. exact (Hn (get_In_values _ _ _ G)).
    + exact (IH Hd G I).
Qed.

End JSMapMore.

(** ** More on [Watcher] *)

Section WatcherMore.
Import JS.

Lemma dispose_count_dispose_at h0 h (w : Watcher.t) ws sd :
  Watcher.dispose_count h
    {| Watcher.watches := ws;
       Watcher.disposables := Watcher.dispose_at h0 (Watcher.disposables w);
       Watcher.super_dispose_calls := sd |}
  = if Nat.eqb h0 h then option_map S (Watcher.dispose_count h w)
    else Watcher.dispose_count h w.
Proof.
  unfold Watcher.dispose_count; simpl.
  destruct (Nat.eqb_spec h0 h) as [->|N].
  - rewrite dispose_at_same.
    destruct (nth_error (Watcher.disposables w) h); reflexivity.
  - rewrite dispose_at_other by exact N. reflexivity.
Qed.

Lemma dispose_all_member hs h ds :
  NoDup hs -> In h hs ->
  nth_error (fold_left (fun ds h => Watcher.dispose_at h ds) hs ds) h
  = option_map Watcher.run_dispose (nth_error ds h).
Proof.
  revert ds. induction hs as [|a hs IH]; intros ds ND I; [destruct I|].
  inversion ND as [|? ? Hn Hd]; subst. simpl.
  destruct (Nat.eq_dec a h) as [->|N].
  - rewrite dispose_all_other by exact Hn. apply dispose_at_same.
  - destruct I as [E|I]; [contradiction|].
    rewrite (IH _ Hd I), dispose_at_other by exact N. reflexivity.
Qed.

(** What holds of every [Watcher] in use: references are valid and stored
    once, a referenced disposable has not been disposed, and no disposable
    has been disposed more than once. *)
Lemma released_once_step (w : Watcher.t) (op : Watcher.Op) :
  Watcher.wf w
  /\ (forall h, In h (JSMap.values (Watcher.watches w)) ->
                Watcher.dispose_count h w = Some 0)
  /\ (forall h n, Watcher.dispose_count h w = Some n -> n <= 1) ->
  Watcher.wf (Watcher.step w op)
  /\ (forall h, In h (JSMap.values (Watcher.watches (Watcher.step w op))) ->
                Watcher.dispose_count h (Watcher.step w op) = Some 0)
  /\ (forall h n, Watcher.dispose_count h (Watcher.step w op) = Some n -> n <= 1).
Proof.
  intros (Hw & Hlive & Hmax). split; [apply wf_step; exact Hw|].
  destruct Hw as [Hb Hn]. destruct op as [req resource opts | req | ]; simpl.
  - (* _watch *)
    assert (Hc : forall h,
               Watcher.dispose_count h (Watcher._watch req resource opts w)
               = if Nat.eqb h (List.length (Watcher.disposables w)) then Some 0
                 else Watcher.dispose_count h w).
    { intro h. unfold Watcher.dispose_count, Watcher._watch; simpl.
      destruct (Nat.eqb_spec h (List.length (Watcher.disposables w))) as [->|N].
      - rewrite nth_error_snoc_new. reflexivity.
      - rewrite nth_error_snoc_other by exact N. reflexivity. }
    split.
    + intros h I. rewrite Hc.
      destruct (Nat.eqb_spec h (List.length (Watcher.disposables w))) as [E|N];
        [reflexivity|].
      unfold Watcher._watch in I; simpl in I.
      destruct (values_set_In _ _ _ _ I) as [E|I']; [contradiction|].
      exact (Hlive _ I').
    + intros h n. rewrite Hc.
      destruct (Nat.eqb h (List.length (Watcher.disposables w))).
      * intro E. injection E as <-. lia.
      * apply Hmax.
  - (* unwatch *)
    unfold Watcher.unwatch.
    destruct (JSMap.get req (Watcher.watches w)) as [h0|] eqn:G;
      [|split; assumption].
    split.
    + intros h I. simpl in I. rewrite dispose_count_dispose_at.
      destruct (Nat.eqb_spec h0 h) as [->|N].
      * exfalso. exact (values_delete_held _ _ _ Hn G I).
      * apply Hlive. exact (values_delete_In _ _ _ I).
    + intros h n. rewrite dispose_count_dispose_at.
      destruct (Nat.eqb_spec h0 h) as [->|N]; [|apply Hmax].
      rewrite (Hlive _ (get_In_values _ _ _ G)). simpl.
      intro E. injection E as <-. lia.
  - (* dispose *)
    split; [intros h []|].
    intros h n. unfold Watcher.dispose_count, Watcher.dispose; simpl.
    destruct (in_dec Nat.eq_dec h (JSMap.values (Watcher.watches w))) as [I|NI].
    + rewrite (dispose_all_member _ _ _ Hn I).
      pose proof (Hlive _ I) as L. unfold Watcher.dispose_count in L.
      destruct (nth_error (Watcher.disposables w) h) as [d|]; [|discriminate].
      simpl in *. injection L as ->. intro E. injection E as <-. lia.
    + rewrite (dispose_all_other _ _ _ NI). apply Hmax.
Qed.

End WatcherMore.

Section WatcherProperties.
Import JS.

(** X1.  On a [Watcher] in use, [dispose()] runs [dispose()] of every
    referenced disposable exactly once, touches no other disposable, empties
    [watches] and runs the inherited [dispose()] once; a second [dispose()]
    then disposes nothing more. *)
Theorem dispose_releases_every_subscription (w : Watcher.t) :
  Watcher.wf w ->
  let w' := Watcher.dispose w in
  Watcher.watches w' = []
  /\ Watcher.super_dispose_calls w' = S (Watcher.super_dispose_calls w)
  /\ (forall h, In h (JSMap.values (Watcher.watches w)) ->
                Watcher.dispose_count h w' = option_map S (Watcher.dispose_count h w))
  /\ (forall h, ~ In h (JSMap.values (Watcher.watches w)) ->
                Watcher.dispose_count h w' = Watcher.dispose_count h w)
  /\ Watcher.disposables (Watcher.dispose w') = Watcher.disposables w'
  /\ Watcher.watches (Watcher.dispose w') = [].
Proof.
  intros [_ Hn] w'. split; [reflexivity|]. split; [reflexivity|]. split; [|split].
  - intros h I. unfold Watcher.dispose_count, w', Watcher.dispose; simpl.
    rewrite (dispose_all_member _ _ _ Hn I).
    destruct (nth_error (Watcher.disposables w) h); reflexivity.
  - intros h NI. unfold Watcher.dispose_count, w', Watcher.dispose; simpl.
    rewrite (dispose_all_other _ _ _ NI). reflexivity.
  - split; reflexivity.
Qed.

Lemma dispose_releases_every_subscription_witness :
  let w := Watcher._watch 2 (Uri.file "/home/coder/b") Sample.opts
             (Watcher._watch 1 (Uri.file "/home/coder/a") Sample.opts Watcher.new) in
  Watcher.dispose_count 0 (Watcher.dispose w) = Some 1
  /\ Watcher.dispose_count 1 (Watcher.dispose w) = Some 1.
Proof.
  intro w.
  assert (Hw : Watcher.wf w).
  { apply (wf_step _ (Watcher.OpWatch 2 (Uri.file "/home/coder/b") Sample.opts)).
    apply (wf_step _ (Watcher.OpWatch 1 (Uri.file "/home/coder/a") Sample.opts)).
    exact wf_new. }
  destruct (dispose_releases_every_subscription w Hw) as (_ & _ & R & _).
  split.
  - exact (R 0 (or_introl eq_refl)).
  - exact (R 1 (or_intror (or_introl eq_refl))).
Defined.

(** X2.  Whatever sequence of [_watch], [unwatch] and [dispose] calls a new
    [Watcher] receives, no disposable is ever disposed twice, a disposable
    that [watches] still references has not been disposed, and no disposable
    is referenced under two request ids. *)
Theorem no_disposable_released_twice (ops : list Watcher.Op) :
  let w := Watcher.run ops Watcher.new in
  (forall h n, Watcher.dispose_count h w = Some n -> n <= 1)
  /\ (forall h, In h (JSMap.values (Watcher.watches w)) ->
                Watcher.dispose_count h w = Some 0)
  /\ Watcher.wf w.
Proof.
  assert (Hgen : forall w,
             Watcher.wf w
             /\ (forall h, In h (JSMap.values (Watcher.watches w)) ->
                           Watcher.dispose_count h w = Some 0)
             /\ (forall h n, Watcher.dispose_count h w = Some n -> n <= 1) ->
             Watcher.wf (Watcher.run ops w)
             /\ (forall h, In h (JSMap.values (Watcher.watches (Watcher.run ops w))) ->
                           Watcher.dispose_count h (Watcher.run ops w) = Some 0)
             /\ (forall h n, Watcher.dispose_count h (Watcher.run ops w) = Some n ->
                             n <= 1)).
  { unfold Watcher.run. induction ops as [|op ops IH]; intros w Hinv; simpl;
      [exact Hinv|].
    apply IH. apply released_once_step. exact Hinv. }
  destruct (Hgen Watcher.new) as (Hw & Hlive & Hmax).
  - split; [exact wf_new|]. split; [intros h []|].
    intros [|h] n E; discriminate E.
  - simpl. split; [exact Hmax|]. split; [exact Hlive | exact Hw].
Qed.

(** X3.  On a [Watcher] in use, [_watch] and [unwatch] of request id [r]
    leave every other request id as it was: it stays registered with the same
    disposable, and that disposable is not disposed by the call. *)
Theorem other_requests_untouched (w : Watcher.t) (r r' : Z) :
  Watcher.wf w ->
  r' <> r ->
  (forall resource opts,
      let w1 := Watcher._watch r resource opts w in
      JSMap.get r' (Watcher.watches w1) = JSMap.get r' (Watcher.watches w)
      /\ forall h', JSMap.get r' (Watcher.watches w) = Some h' ->
                    Watcher.dispose_count h' w1 = Watcher.dispose_count h' w)
  /\ (forall w2,
        Watcher.unwatch r w = Return w2 ->
        JSMap.get r' (Watcher.watches w2) = JSMap.get r' (Watcher.watches w)
        /\ forall h', JSMap.get r' (Watcher.watches w) = Some h' ->
                      Watcher.dispose_count h' w2 = Watcher.dispose_count h' w).
Proof.
  intros [Hb Hn] N. split.
  - intros resource opts w1. split.
    + apply get_set_other. exact N.
    + intros h' G. pose proof (Hb _ (get_In_values _ _ _ G)) as L.
      unfold Watcher.dispose_count, w1, Watcher._watch; simpl.
      rewrite nth_error_snoc_other by lia. reflexivity.
  - intros w2. unfold Watcher.unwatch.
    destruct (JSMap.get r (Watcher.watches w)) as [h|] eqn:G; [|discriminate].
    intro E. injection E as <-. split.
    + apply get_delete_other. exact N.
    + intros h' G'. rewrite dispose_count_dispose_at.
      destruct (Nat.eqb_spec h h') as [->|_]; [|reflexivity].
      exfalso. apply N. exact (get_injective _ _ _ _ Hn G' G).
Qed.

Lemma other_requests_untouched_witness :
  let w := Watcher._watch 2 (Uri.file "/home/coder/b") Sample.opts
             (Watcher._watch 1 (Uri.file "/home/coder/a") Sample.opts Watcher.new) in
  exists w2,
    Watcher.unwatch 1 w = Return w2
    /\ JSMap.get 2%Z (Watcher.watches w2) = Some 1
    /\ Watcher.dispose_count 1 w2 = Some 0.
Proof.
  intro w.
  assert (Hw : Watcher.wf w).
  { apply (wf_step _ (Watcher.OpWatch 2 (Uri.file "/home/coder/b") Sample.opts)).
    apply (wf_step _ (Watcher.OpWatch 1 (Uri.file "/home/coder/a") Sample.opts)).
    exact wf_new. }
  assert (N : 2%Z <> 1%Z) by discriminate.
  destruct (other_requests_untouched w 1 2 Hw N) as [_ U].
  eexists. split; [reflexivity|].
  destruct (U _ eq_refl) as [G C]. split; [exact G | exact (C 1 eq_refl)].
Defined.

(** X4.  After an [unwatch] that succeeded, a second [unwatch] of the same
    request id throws the TypeError of the call on undefined. *)
Theorem unwatch_twice_throws (w w' : Watcher.t) (r : Z) :
  Watcher.unwatch r w = Return w' ->
  exists msg, Watcher.unwatch r w' = Throw (TypeError msg).
Proof.
  unfold Watcher.unwatch at 1.
  destruct (JSMap.get r (Watcher.watches w)) as [h|]; [|discriminate].
  intro E. injection E as <-. unfold Watcher.unwatch; simpl.
  rewrite get_delete_same. eexists. reflexivity.
Qed.

Lemma unwatch_twice_throws_witness :
  exists w' msg,
    Watcher.unwatch 1 (Watcher._watch 1 (Uri.file "/home/coder/a") Sample.opts
                         Watcher.new) = Return w'
    /\ Watcher.unwatch 1 w' = Throw (TypeError msg).
Proof.
  eexists.
  destruct (unwatch_twice_throws
              (Watcher._watch 1 (Uri.file "/home/coder/a") Sample.opts Watcher.new)
              _ 1 eq_refl) as [msg E].
  exists msg. split; [reflexivity | exact E].
Defined.

End WatcherProperties.

Section FileChannelProperties.
Import JS.

(** X5.  [watch] on a session that has no [Watcher] (no listener attached to
    its "filechange" event) is rejected with the TypeError of the call on
    undefined and changes nothing. *)
Theorem watch_needs_listener
    `{FileProviderChannel.Runtime}
    (env : Environment.IEnvironmentService) (session : string) (req : Z)
    (resource : Uri.UriComponents) (opts : Watcher.IWatchOptions)
    (c : FileProviderChannel.t) :
  JSMap.get session (FileProviderChannel.watchers c) = None ->
  exists msg,
    FileProviderChannel.watch env session req resource opts c
    = (Rejected (TypeError msg), c).
Proof.
  intro G. unfold FileProviderChannel.watch. rewrite G. eexists. reflexivity.
Qed.

Lemma watch_needs_listener_witness :
  exists msg,
    @FileProviderChannel.watch Sample.runtime Sample.env "s1" 1
      (Sample.component "/home/coder/project" EmptyString) Sample.opts
      FileProviderChannel.new
    = (Rejected (TypeError msg), FileProviderChannel.new).
Proof.
  exact (@watch_needs_listener Sample.runtime Sample.env "s1" 1
           (Sample.component "/home/coder/project" EmptyString) Sample.opts
           FileProviderChannel.new eq_refl).
Defined.

(** X6.  [watch] on a session that has a [Watcher]: when [transform]
    returns a resource, the call is fulfilled and the session's [Watcher] then
    holds under the request id a new disposable, not yet disposed, that
    watches that resource with the given options; when [transform] throws,
    the call is rejected with that error and the channel is left as it was. *)
Theorem watch_registers_transformed
    `{FileProviderChannel.Runtime}
    (env : Environment.IEnvironmentService) (session : string) (req : Z)
    (resource : Uri.UriComponents) (opts : Watcher.IWatchOptions)
    (c : FileProviderChannel.t) (w : Watcher.t) :
  JSMap.get session (FileProviderChannel.watchers c) = Some w ->
  (forall uri,
      FileProviderChannel.transform env resource = Return uri ->
      fst (FileProviderChannel.watch env session req resource opts c) = Fulfilled tt
      /\ exists w',
           JSMap.get session
             (FileProviderChannel.watchers
                (snd (FileProviderChannel.watch env session req resource opts c)))
           = Some w'
           /\ JSMap.get req (Watcher.watches w')
              = Some (List.length (Watcher.disposables w))
           /\ nth_error (Watcher.disposables w') (List.length (Watcher.disposables w))
              = Some {| Watcher.watched := uri; Watcher.options := opts;
                        Watcher.dispose_calls := 0 |})
  /\ (forall e,
        FileProviderChannel.transform env resource = Throw e ->
        FileProviderChannel.watch env session req resource opts c = (Rejected e, c)).
Proof.
  intro G. split.
  - intros uri T. unfold FileProviderChannel.watch. rewrite G, T. simpl.
    split; [reflexivity|]. exists (Watcher._watch req uri opts w).
    split; [apply get_set_same|]. split; [apply get_set_same|].
    apply nth_error_snoc_new.
  - intros e T. unfold FileProviderChannel.watch. rewrite G, T. reflexivity.
Qed.

Lemma watch_registers_transformed_witness :
  (exists w',
      JSMap.get "s1"
        (FileProviderChannel.watchers
           (snd (@FileProviderChannel.watch Sample.runtime Sample.env "s1" 1
                   (Sample.component "/static/out/vs/walkThrough.md" EmptyString)
                   Sample.opts
                   (FileProviderChannel.onFirstListenerAdd "s1"
                      FileProviderChannel.new)))) = Some w'
      /\ nth_error (Watcher.disposables w') 0
         = Some {| Watcher.watched := Uri.file "/opt/code-server/out/vs/walkThrough.md";
                   Watcher.options := Sample.opts;
                   Watcher.dispose_calls := 0 |})
  /\ exists e,
       @FileProviderChannel.watch Sample.runtime Sample.env "s1" 1
         (Sample.component "home/coder/project" EmptyString) Sample.opts
         (FileProviderChannel.onFirstListenerAdd "s1" FileProviderChannel.new)
       = (Rejected e, FileProviderChannel.onFirstListenerAdd "s1" FileProviderChannel.new).
Proof.
  split.
  - destruct (proj1 (@watch_registers_transformed Sample.runtime Sample.env "s1" 1
                       (Sample.component "/static/out/vs/walkThrough.md" EmptyString)
                       Sample.opts
                       (FileProviderChannel.onFirstListenerAdd "s1"
                          FileProviderChannel.new)
                       Watcher.new eq_refl)
                    _ eq_refl)
      as (_ & w' & G & _ & D).
    exists w'. split; [exact G | exact D].
  - eexists.
    exact (proj2 (@watch_registers_transformed Sample.runtime Sample.env "s1" 1
                    (Sample.component "home/coder/project" EmptyString)
                    Sample.opts
                    (FileProviderChannel.onFirstListenerAdd "s1"
                       FileProviderChannel.new)
                    Watcher.new eq_refl)
                 _ eq_refl).
Defined.

(** X7.  Sessions are partitioned: [watch], [unwatch], the attaching of a
    first listener and the detaching of a last listener for one session leave
    the [Watcher] of every other session as it was. *)
Theorem sessions_are_isolated
    `{FileProviderChannel.Runtime}
    (env : Environment.IEnvironmentService) (s s' : string) (req : Z)
    (resource : Uri.UriComponents) (opts : Watcher.IWatchOptions)
    (c : FileProviderChannel.t) :
  s' <> s ->
  JSMap.get s' (FileProviderChannel.watchers
                  (snd (FileProviderChannel.watch env s req resource opts c)))
  = JSMap.get s' (FileProviderChannel.watchers c)
  /\ JSMap.get s' (FileProviderChannel.watchers
                     (snd (FileProviderChannel.unwatch s req c)))
     = JSMap.get s' (FileProviderChannel.watchers c)
  /\ JSMap.get s' (FileProviderChannel.watchers
                     (FileProviderChannel.onFirstListenerAdd s c))
     = JSMap.get s' (FileProviderChannel.watchers c)
  /\ (forall w c',
        FileProviderChannel.onLastListenerRemove s c = Return (w, c') ->
        JSMap.get s' (FileProviderChannel.watchers c')
        = JSMap.get s' (FileProviderChannel.watchers c)).
Proof.
  intro N. split; [|split; [|split]].
  - unfold FileProviderChannel.watch.
    destruct (JSMap.get s (FileProviderChannel.watchers c)); [|reflexivity].
    destruct (FileProviderChannel.transform env resource); [|reflexivity].
    apply get_set_other. exact N.
  - unfold FileProviderChannel.unwatch.
    destruct (JSMap.get s (FileProviderChannel.watchers c)) as [w|]; [|reflexivity].
    destruct (Watcher.unwatch req w); [|reflexivity].
    apply get_set_other. exact N.
  - apply get_set_other. exact N.
  - intros w c'. unfold FileProviderChannel.onLastListenerRemove.
    destruct (JSMap.get s (FileProviderChannel.watchers c)); [|discriminate].
    intro E. injection E as _ <-. apply get_delete_other. exact N.
Qed.

Lemma sessions_are_isolated_witness :
  let c := FileProviderChannel.onFirstListenerAdd "s2"
             (FileProviderChannel.onFirstListenerAdd "s1" FileProviderChannel.new) in
  JSMap.get "s2"
    (FileProviderChannel.watchers
       (snd (@FileProviderChannel.watch Sample.runtime Sample.env "s1" 1
               (Sample.component "/home/coder/project" EmptyString) Sample.opts c)))
  = Some Watcher.new.
Proof.
  intro c.
  assert (N : "s2" <> "s1") by discriminate.
  exact (proj1 (@sessions_are_isolated Sample.runtime Sample.env "s1" "s2" 1
                  (Sample.component "/home/coder/project" EmptyString) Sample.opts
                  c N)).
Defined.

(** X8.  For a session that has no [Watcher], attaching the first listener
    and then detaching the last one gives the channel back as it was; the
    [Watcher] created in between ends disposed. *)
Theorem attach_detach_restores (s : string) (c : FileProviderChannel.t) :
  JSMap.get s (FileProviderChannel.watchers c) = None ->
  FileProviderChannel.onLastListenerRemove s (FileProviderChannel.onFirstListenerAdd s c)
  = Return (Watcher.dispose Watcher.new, c).
Proof.
  intro G. unfold FileProviderChannel.onLastListenerRemove,
             FileProviderChannel.onFirstListenerAdd; simpl.
  rewrite get_set_same, (delete_set_absent _ _ _ G). destruct c. reflexivity.
Qed.

Lemma attach_detach_restores_witness :
  FileProviderChannel.onLastListenerRemove "s1"
    (FileProviderChannel.onFirstListenerAdd "s1" FileProviderChannel.new)
  = Return (Watcher.dispose Watcher.new, FileProviderChannel.new).
Proof.
  exact (attach_detach_restores "s1" FileProviderChannel.new eq_refl).
Defined.

(** X9.  When the last listener of a session is detached, the session's
    [Watcher] is disposed (it references no subscription any more) and
    dropped: from then on [watch] and [unwatch] for that session are
    rejected, and detaching again throws a TypeError. *)
Theorem detach_ends_session
    (s : string) (c c' : FileProviderChannel.t) (w : Watcher.t) :
  FileProviderChannel.onLastListenerRemove s c = Return (w, c') ->
  (exists w0, JSMap.get s (FileProviderChannel.watchers c) = Some w0
              /\ w = Watcher.dispose w0)
  /\ Watcher.watches w = []
  /\ JSMap.get s (FileProviderChannel.watchers c') = None
  /\ (forall (R : FileProviderChannel.Runtime) env req resource opts,
        exists msg,
          @FileProviderChannel.watch R env s req resource opts c'
          = (Rejected (TypeError msg), c'))
  /\ (forall req,
        exists msg,
          FileProviderChannel.unwatch s req c' = (Rejected (TypeError msg), c'))
  /\ exists msg, FileProviderChannel.onLastListenerRemove s c' = Throw (TypeError msg).
Proof.
  unfold FileProviderChannel.onLastListenerRemove at 1.
  destruct (JSMap.get s (FileProviderChannel.watchers c)) as [w0|] eqn:G;
    [|discriminate].
  intro E. injection E as <- <-.
  assert (G' : JSMap.get s (JSMap.delete s (FileProviderChannel.watchers c)) = None)
    by apply get_delete_same.
  split; [exists w0; split; reflexivity|]. split; [reflexivity|].
  split; [exact G'|]. split; [|split].
  - intros R env req resource opts. unfold FileProviderChannel.watch; simpl.
    rewrite G'. eexists. reflexivity.
  - intro req. unfold FileProviderChannel.unwatch; simpl.
    rewrite G'. eexists. reflexivity.
  - unfold FileProviderChannel.onLastListenerRemove; simpl.
    rewrite G'. eexists. reflexivity.
Qed.

Lemma detach_ends_session_witness :
  exists msg,
    FileProviderChannel.unwatch "s1" 1 FileProviderChannel.new
    = (Rejected (TypeError msg), FileProviderChannel.new).
Proof.
  exact (proj1 (proj2 (proj2 (proj2 (proj2
           (detach_ends_session "s1"
              (FileProviderChannel.onFirstListenerAdd "s1" FileProviderChannel.new)
              FileProviderChannel.new (Watcher.dispose Watcher.new) eq_refl)))))
         1%Z).
Defined.

(** X10.  [dispose()] of the channel disposes the [Watcher] of every session
    (none references a subscription any more) and forgets all sessions: from
    then on [watch] and [unwatch] are rejected for every session, and
    detaching the last listener of any session throws a TypeError. *)
Theorem dispose_ends_every_session (c : FileProviderChannel.t) :
  let disposed := fst (FileProviderChannel.dispose c) in
  let c' := snd (FileProviderChannel.dispose c) in
  List.length disposed = List.length (FileProviderChannel.watchers c)
  /\ (forall w, In w disposed -> Watcher.watches w = [])
  /\ (forall s w, JSMap.get s (FileProviderChannel.watchers c) = Some w ->
                  In (Watcher.dispose w) disposed)
  /\ (forall (R : FileProviderChannel.Runtime) env s req resource opts,
        exists msg,
          @FileProviderChannel.watch R env s req resource opts c'
          = (Rejected (TypeError msg), c'))
  /\ (forall s req,
        exists msg,
          FileProviderChannel.unwatch s req c' = (Rejected (TypeError msg), c'))
  /\ (forall s,
        exists msg,
          FileProviderChannel.onLastListenerRemove s c' = Throw (TypeError msg)).
Proof.
  intros disposed c'. unfold disposed, c', FileProviderChannel.dispose; simpl.
  split; [unfold JSMap.values; rewrite !length_map; reflexivity|].
  split; [|split; [|split; [|split]]].
  - intros w I. apply in_map_iff in I. destruct I as (w0 & <- & _). reflexivity.
  - intros s w G. apply in_map. exact (get_In_values _ _ _ G).
  - intros. eexists. reflexivity.
  - intros. eexists. reflexivity.
  - intros. eexists. reflexivity.
Qed.

Lemma dispose_ends_every_session_witness :
  let c := FileProviderChannel.onFirstListenerAdd "s1" FileProviderChannel.new in
  In (Watcher.dispose Watcher.new) (fst (FileProviderChannel.dispose c)).
Proof.
  intro c.
  exact (proj1 (proj2 (proj2 (dispose_ends_every_session c)))
               "s1" Watcher.new eq_refl).
Defined.

(** X11.  Attaching a first listener for a session always installs a new,
    empty [Watcher], also when the session already had one: the request ids
    registered before are unknown afterwards, so [unwatch] of any request id
    is rejected. *)
Theorem reattach_discards_registrations
    (s : string) (req : Z) (c : FileProviderChannel.t) :
  JSMap.get s (FileProviderChannel.watchers (FileProviderChannel.onFirstListenerAdd s c))
  = Some Watcher.new
  /\ exists msg,
       FileProviderChannel.unwatch s req (FileProviderChannel.onFirstListenerAdd s c)
       = (Rejected (TypeError msg), FileProviderChannel.onFirstListenerAdd s c).
Proof.
  assert (G : JSMap.get s (FileProviderChannel.watchers
                             (FileProviderChannel.onFirstListenerAdd s c))
              = Some Watcher.new) by apply get_set_same.
  split; [exact G|]. unfold FileProviderChannel.unwatch. rewrite G.
  eexists. reflexivity.
Qed.

(** X12.  On a session that has a [Watcher], when [transform] returns a
    resource, [watch] followed by [unwatch] of the same request id are both
    fulfilled; afterwards the session's [Watcher] has no entry for the
    request id and a further [unwatch] is rejected. *)
Theorem watch_then_unwatch
    `{FileProviderChannel.Runtime}
    (env : Environment.IEnvironmentService) (session : string) (req : Z)
    (resource : Uri.UriComponents) (opts : Watcher.IWatchOptions)
    (c : FileProviderChannel.t) (w : Watcher.t) (uri : Uri.URI) :
  JSMap.get session (FileProviderChannel.watchers c) = Some w ->
  FileProviderChannel.transform env resource = Return uri ->
  let c1 := snd (FileProviderChannel.watch env session req resource opts c) in
  let c2 := snd (FileProviderChannel.unwatch session req c1) in
  fst (FileProviderChannel.watch env session req resource opts c) = Fulfilled tt
  /\ fst (FileProviderChannel.unwatch session req c1) = Fulfilled tt
  /\ (exists w2, JSMap.get session (FileProviderChannel.watchers c2) = Some w2
                 /\ JSMap.get req (Watcher.watches w2) = None)
  /\ exists msg,
       FileProviderChannel.unwatch session req c2 = (Rejected (TypeError msg), c2).
Proof.
  intros G T c1 c2.
  assert (E1 : FileProviderChannel.watch env session req resource opts c
               = (Fulfilled tt,
                  {| FileProviderChannel.watchers :=
                       JSMap.set session (Watcher._watch req uri opts w)
                                 (FileProviderChannel.watchers c) |})).
  { unfold FileProviderChannel.watch. rewrite G, T. reflexivity. }
  assert (G1 : JSMap.get session (FileProviderChannel.watchers c1)
               = Some (Watcher._watch req uri opts w)).
  { unfold c1. rewrite E1. apply get_set_same. }
  assert (U1 : exists w2,
             Watcher.unwatch req (Watcher._watch req uri opts w) = Return w2
             /\ JSMap.get req (Watcher.watches w2) = None).
  { unfold Watcher.unwatch.
    assert (Gr : JSMap.get req (Watcher.watches (Watcher._watch req uri opts w))
                 = Some (List.length (Watcher.disposables w)))
      by apply get_set_same.
    rewrite Gr. eexists. split; [reflexivity | apply get_delete_same]. }
  destruct U1 as (w2 & U & Gw2).
  assert (E2 : FileProviderChannel.unwatch session req c1
               = (Fulfilled tt,
                  {| FileProviderChannel.watchers :=
                       JSMap.set session w2 (FileProviderChannel.watchers c1) |})).
  { unfold FileProviderChannel.unwatch. rewrite G1, U. reflexivity. }
  assert (G2 : JSMap.get session (FileProviderChannel.watchers c2) = Some w2).
  { unfold c2. rewrite E2. apply get_set_same. }
  split; [rewrite E1; reflexivity|]. split; [rewrite E2; reflexivity|].
  split; [exists w2; split; [exact G2 | exact Gw2]|].
  unfold FileProviderChannel.unwatch at 1. rewrite G2.
  unfold Watcher.unwatch. rewrite Gw2. eexists. reflexivity.
Qed.

Lemma watch_then_unwatch_witness :
  let c := FileProviderChannel.onFirstListenerAdd "s1" FileProviderChannel.new in
  let c1 := snd (@FileProviderChannel.watch Sample.runtime Sample.env "s1" 1
                   (Sample.component "/home/coder/project" EmptyString)
                   Sample.opts c) in
  fst (FileProviderChannel.unwatch "s1" 1 c1) = Fulfilled tt.
Proof.
  intros c c1.
  exact (proj1 (proj2 (@watch_then_unwatch Sample.runtime Sample.env "s1" 1
                         (Sample.component "/home/coder/project" EmptyString)
                         Sample.opts c Watcher.new _ eq_refl eq_refl))).
Defined.

(** X13.  For a webview resource (path [/vscode-resource], non-empty query)
    whose query parses to a value with a non-empty string
    [requestResourcePath]: when [URI.file] accepts that path, [transform]
    returns its file URI; when [URI.file] refuses it, the error is swallowed
    and the outcome is that of [URI.from(resource)]. *)
Theorem transform_webview_resource
    `{FileProviderChannel.Runtime}
    (env : Environment.IEnvironmentService) (resource : Uri.UriComponents)
    (parsed : JSValue) (p : string) :
  Uri.path resource = "/vscode-resource" ->
  Uri.query resource <> EmptyString ->
  FileProviderChannel.JSON_parse (Uri.query resource) = Return parsed ->
  get_requestResourcePath parsed = Return (JStr p) ->
  p <> EmptyString ->
  (FileProviderChannel.URI_file_refusal p = None ->
   FileProviderChannel.transform env resource = Return (Uri.file p))
  /\ (forall e,
        FileProviderChannel.URI_file_refusal p = Some e ->
        FileProviderChannel.transform env resource
        = FileProviderChannel.URI_from resource).
Proof.
  intros Hp Hq Hj Hr Hne.
  assert (E : FileProviderChannel.transform env resource
              = bind (try_catch
                        (bind (FileProviderChannel.URI_file p)
                              (fun u => Return (Some u)))
                        (fun _ => Return None))
                     (fun returned =>
                        match returned with
                        | Some u => Return u
                        | None => FileProviderChannel.URI_from resource
                        end)).
  { unfold FileProviderChannel.transform. rewrite Hp. simpl.
    destruct (String.eqb_spec (Uri.query resource) EmptyString) as [E|_];
      [contradiction|]. simpl.
    rewrite Hj. simpl. rewrite Hr. simpl.
    destruct (String.eqb_spec p EmptyString) as [E|_]; [contradiction|].
    reflexivity. }
  rewrite E. unfold FileProviderChannel.URI_file. split.
  - intros ->. reflexivity.
  - intros e ->. reflexivity.
Qed.

Lemma transform_webview_resource_witness :
  @FileProviderChannel.transform Sample.webview_runtime Sample.env
    (Sample.component "/vscode-resource" Sample.webview_query)
  = Return (Uri.file "/home/coder/page.html").
Proof.
  apply (@transform_webview_resource Sample.webview_runtime Sample.env
           (Sample.component "/vscode-resource" Sample.webview_query)
           (JObj [("requestResourcePath", JStr "/home/coder/page.html")])
           "/home/coder/page.html").
  - reflexivity.
  - discriminate.
  - reflexivity.
  - reflexivity.
  - discriminate.
  - reflexivity.
Defined.

(** X14.  [transform] does not remap a resource that is not special: when
    the path does not start with [/static] and either is not
    [/vscode-resource] or comes with an empty query, the outcome is that of
    [URI.from(resource)], whatever the query holds: the resource itself when
    [URI.from] accepts its components, the error of [URI.from] when it
    refuses them. *)
Theorem transform_passes_through
    `{FileProviderChannel.Runtime}
    (env : Environment.IEnvironmentService) (resource : Uri.UriComponents) :
  String.prefix "/static" (Uri.path resource) = false ->
  Uri.path resource <> "/vscode-resource" \/ Uri.query resource = EmptyString ->
  FileProviderChannel.transform env resource = FileProviderChannel.URI_from resource
  /\ (FileProviderChannel.URI_from_refusal resource = None ->
      FileProviderChannel.transform env resource = Return (Uri.from resource))
  /\ (forall e,
        FileProviderChannel.URI_from_refusal resource = Some e ->
        FileProviderChannel.transform env resource = Throw e).
Proof.
  intros Hs Hw.
  assert (E : FileProviderChannel.transform env resource
              = FileProviderChannel.URI_from resource).
  { unfold FileProviderChannel.transform.
    rewrite indexOf_zero_prefix, Hs.
    destruct Hw as [N|E].
    - destruct (String.eqb_spec (Uri.path resource) "/vscode-resource") as [E|_];
        [contradiction | reflexivity].
    - rewrite E. rewrite andb_false_r. reflexivity. }
  rewrite E. unfold FileProviderChannel.URI_from.
  split; [reflexivity|]. split.
  - intros ->. reflexivity.
  - intros e ->. reflexivity.
Qed.

Lemma transform_passes_through_witness :
  @FileProviderChannel.transform Sample.runtime Sample.env
    (Sample.component "/home/coder/static/app.js" "{}")
  = Return (Uri.from (Sample.component "/home/coder/static/app.js" "{}"))
  /\ @FileProviderChannel.transform Sample.runtime Sample.env
       (Sample.component "/vscode-resource" EmptyString)
     = Return (Uri.from (Sample.component "/vscode-resource" EmptyString)).
Proof.
  assert (N : "/home/coder/static/app.js" <> "/vscode-resource") by discriminate.
  split.
  - exact (proj1 (proj2 (@transform_passes_through Sample.runtime Sample.env
                           (Sample.component "/home/coder/static/app.js" "{}")
                           eq_refl (or_introl N)))
                 eq_refl).
  - exact (proj1 (proj2 (@transform_passes_through Sample.runtime Sample.env
                           (Sample.component "/vscode-resource" EmptyString)
                           eq_refl (or_intror eq_refl)))
                 eq_refl).
Defined.

End FileChannelProperties.

(** ** More on the merge *)

Section MergeMore.
Import JS ExtensionEnvironmentChannel.
Context `{Platform}.
Implicit Types (m : JSMap.t string IExtensionDescription)
               (l : list IExtensionDescription) (k : string)
               (x d : IExtensionDescription).

Lemma set_present m k x old :
  JSMap.get k m = Some old -> List.length (JSMap.set k x m) = List.length m.
Proof.
  induction m as [|[k' x'] m IH]; simpl; [discriminate|].
  destruct (String.eqb k k'); simpl; [reflexivity|].
  intro G. rewrite (IH G). reflexivity.
Qed.

Lemma set_absent m k x :
  JSMap.get k m = None -> JSMap.set k x m = m ++ [(k, x)].
Proof.
  induction m as [|[k' x'] m IH]; simpl; [reflexivity|].
  destruct (String.eqb k k'); [discriminate|].
  intro G. rewrite (IH G). reflexivity.
Qed.

Lemma keys_set_present m k x old :
  JSMap.get k m = Some old -> JSMap.keys (JSMap.set k x m) = JSMap.keys m.
Proof.
  induction m as [|[k' x'] m IH]; simpl; [discriminate|].
  destruct (String.eqb k k'); simpl; [reflexivity|].
  intro G. rewrite (IH G). reflexivity.
Qed.

Lemma get_present m k : In k (JSMap.keys m) -> exists x, JSMap.get k m = Some x.
Proof.
  induction m as [|[k' x'] m IH]; simpl; [intros []|].
  destruct (String.eqb_spec k k') as [->|N]; [eauto|].
  intros [E|I]; [congruence | exact (IH I)].
Qed.

Lemma first_occurrences_In (ks : list string) k :
  In k (first_occurrences ks) <-> In k ks.
Proof.
  induction ks as [|a ks IH]; simpl; [tauto|].
  rewrite filter_In, IH. destruct (String.eqb_spec k a) as [->|N]; simpl.
  - tauto.
  - split; [tauto|]. intros [E|I]; [congruence | tauto].
Qed.

Lemma first_occurrences_snoc (ks : list string) k :
  first_occurrences (ks ++ [k])
  = if in_dec string_dec k ks then first_occurrences ks
    else first_occurrences ks ++ [k].
Proof.
  induction ks as [|a ks IH]; simpl; [reflexivity|].
  rewrite IH. destruct (in_dec string_dec k ks) as [I|NI].
  - destruct (string_dec a k); reflexivity.
  - rewrite filter_app. simpl.
    destruct (string_dec a k) as [->|N].
    + rewrite String.eqb_refl. simpl. rewrite app_nil_r. reflexivity.
    + destruct (String.eqb_spec k a) as [E|_]; [congruence|]. reflexivity.
Qed.

Lemma merge_sequence_keys l :
  JSMap.keys (fst (merge_sequence l)) = first_occurrences (map toKey l).
Proof.
  induction l as [|x l IH] using rev_ind; [reflexivity|].
  rewrite merge_sequence_snoc, map_app. cbn [map].
  rewrite first_occurrences_snoc.
  destruct (merge_sequence l) as [m w]. simpl in *.
  destruct (in_dec string_dec (toKey x) (map toKey l)) as [I|NI].
  - apply first_occurrences_In in I. rewrite <- IH in I.
    destruct (get_present _ _ I) as [old G].
    rewrite (keys_set_present _ _ _ _ G). exact IH.
  - assert (G : JSMap.get (toKey x) m = None).
    { apply get_absent. rewrite IH, first_occurrences_In. exact NI. }
    rewrite (set_absent _ _ _ G). unfold JSMap.keys in *.
    rewrite map_app, IH. reflexivity.
Qed.

Lemma merge_sequence_count l :
  List.length (JSMap.values (fst (merge_sequence l)))
  + List.length (snd (merge_sequence l))
  = List.length l.
Proof.
  induction l as [|x l IH] using rev_ind; [reflexivity|].
  rewrite merge_sequence_snoc, length_app. simpl.
  destruct (merge_sequence l) as [m w]. unfold JSMap.values in *. simpl in *.
  rewrite length_map in *.
  destruct (JSMap.get (toKey x) m) as [old|] eqn:G.
  - rewrite (set_present _ _ _ _ G), length_app. simpl. lia.
  - rewrite (set_absent _ _ _ G), length_app. simpl. lia.
Qed.

Lemma merge_sequence_distinct l :
  NoDup (map toKey l) ->
  merge_sequence l = (map (fun x => (toKey x, x)) l, []).
Proof.
  induction l as [|x l IH] using rev_ind; intro ND; [reflexivity|].
  rewrite map_app in ND. simpl in ND.
  apply NoDup_remove in ND. rewrite app_nil_r in ND. destruct ND as [ND NI].
  rewrite merge_sequence_snoc, (IH ND). unfold merge_extension.
  assert (G : JSMap.get (toKey x) (map (fun x => (toKey x, x)) l) = None).
  { apply get_absent. unfold JSMap.keys. rewrite map_map. simpl. exact NI. }
  rewrite G, (set_absent _ _ _ G), map_app. reflexivity.
Qed.

Lemma merge_sequence_warnings l msg :
  In msg (snd (merge_sequence l)) <->
  exists l1 new l2 old,
    l = l1 ++ new :: l2
    /\ last_with_key (toKey new) l1 = Some old
    /\ msg = overridden old new.
Proof.
  split.
  - induction l as [|x l IH] using rev_ind; [intros []|].
    rewrite warnings_snoc. intro I. apply in_app_or in I. destruct I as [I|I].
    + destruct (IH I) as (l1 & new & l2 & old & -> & E & ->).
      exists l1, new, (l2 ++ [x]), old. rewrite <- app_assoc. auto.
    + destruct (last_with_key (toKey x) l) as [old|] eqn:E; [|destruct I].
      destruct I as [<-|[]]. exists l, x, [], old. auto.
  - intros (l1 & new & l2 & old & -> & E & ->). apply warning_logged. exact E.
Qed.

End MergeMore.

Section EnvironmentChannelProperties.
Import JS.

(** X15.  The merge accounts for every scanned descriptor: each one either is
    in the returned list or was overridden, with one warning logged per
    overridden descriptor.  So the length of the list plus the number of
    warnings is the number of descriptors scanned. *)
Theorem merge_accounts_for_every_descriptor
    `{ExtensionEnvironmentChannel.Platform}
    (allExtensions : list (list (list ExtensionEnvironmentChannel.IExtensionDescription))) :
  List.length (JSMap.values (fst (ExtensionEnvironmentChannel.merge allExtensions)))
  + List.length (snd (ExtensionEnvironmentChannel.merge allExtensions))
  = List.length (List.concat (List.concat allExtensions)).
Proof. rewrite merge_flat. apply merge_sequence_count. Qed.

(** X16.  When the scanned descriptors all have different identity keys, the
    merge returns them unchanged, in scan order (builtin roots first, each
    group in root-list order), and logs no warning. *)
Theorem merge_of_distinct_identities
    `{ExtensionEnvironmentChannel.Platform}
    (allExtensions : list (list (list ExtensionEnvironmentChannel.IExtensionDescription))) :
  NoDup (map ExtensionEnvironmentChannel.toKey (List.concat (List.concat allExtensions))) ->
  JSMap.values (fst (ExtensionEnvironmentChannel.merge allExtensions))
  = List.concat (List.concat allExtensions)
  /\ snd (ExtensionEnvironmentChannel.merge allExtensions) = [].
Proof.
  intro ND. rewrite merge_flat, (merge_sequence_distinct _ ND). simpl.
  split; [|reflexivity]. unfold JSMap.values. rewrite map_map. simpl. apply map_id.
Qed.

Lemma merge_of_distinct_identities_witness :
  @ExtensionEnvironmentChannel.scanExtensions (Sample.platform false)
    Sample.quiet_env "en"
  = ({| ExtensionEnvironmentChannel.settled_at := 2;
        ExtensionEnvironmentChannel.state :=
          Fulfilled [Sample.extra_theme; Sample.shared_lint] |}, []).
Proof.
  destruct (@merge_of_distinct_identities (Sample.platform false)
              [[[Sample.extra_theme]]; [[Sample.shared_lint]]])
    as [V W].
  - repeat constructor; simpl; intuition discriminate.
  - unfold ExtensionEnvironmentChannel.scanExtensions. cbn -[ExtensionEnvironmentChannel.merge].
    destruct (@ExtensionEnvironmentChannel.merge (Sample.platform false)
                [[[Sample.extra_theme]]; [[Sample.shared_lint]]]) as [m w].
    simpl in V, W. rewrite V, W. reflexivity.
Defined.

(** X17.  The returned list is ordered by first appearance of the identity
    keys in scan order: a descriptor that overrides an earlier one takes the
    overridden descriptor's place in the list. *)
Theorem merged_list_order
    `{ExtensionEnvironmentChannel.Platform}
    (allExtensions : list (list (list ExtensionEnvironmentChannel.IExtensionDescription))) :
  map ExtensionEnvironmentChannel.toKey
      (JSMap.values (fst (ExtensionEnvironmentChannel.merge allExtensions)))
  = ExtensionEnvironmentChannel.first_occurrences
      (map ExtensionEnvironmentChannel.toKey (List.concat (List.concat allExtensions))).
Proof.
  rewrite merge_flat, (coherent_keys _ (coherent_merge_sequence _)).
  apply merge_sequence_keys.
Qed.

(** X18.  The warnings logged by the merge are exactly those of the
    collisions: a message is logged if and only if it names, as the old
    location, the last descriptor merged before some scanned descriptor with
    that descriptor's identity key and, as the new location, that descriptor. *)
Theorem warnings_name_displaced_pairs
    `{ExtensionEnvironmentChannel.Platform}
    (allExtensions : list (list (list ExtensionEnvironmentChannel.IExtensionDescription)))
    (msg : string) :
  In msg (snd (ExtensionEnvironmentChannel.merge allExtensions)) <->
  exists l1 new l2 old,
    List.concat (List.concat allExtensions) = l1 ++ new :: l2
    /\ ExtensionEnvironmentChannel.last_with_key
         (ExtensionEnvironmentChannel.toKey new) l1 = Some old
    /\ msg = ExtensionEnvironmentChannel.overridden old new.
Proof. rewrite merge_flat. apply merge_sequence_warnings. Qed.

Lemma warnings_name_displaced_pairs_witness :
  In "/opt/code-server/extensions/pub.ext has been overridden /home/coder/extensions/pub.ext"
     (snd (@ExtensionEnvironmentChannel.merge (Sample.platform false)
             [[[Sample.builtin_ext; Sample.builtin_git]]; [[Sample.installed_ext]]])).
Proof.
  apply (proj2 (@warnings_name_displaced_pairs (Sample.platform false)
                  [[[Sample.builtin_ext; Sample.builtin_git]]; [[Sample.installed_ext]]]
                  _)).
  exists [Sample.builtin_ext; Sample.builtin_git], Sample.installed_ext, [],
         Sample.builtin_ext.
  repeat split.
Defined.

(** X19.  The merge neither invents nor loses an identity: every descriptor
    of the returned list is one of the scanned descriptors, and every scanned
    descriptor has a descriptor of its identity key in the returned list. *)
Theorem merge_keeps_every_identity
    `{ExtensionEnvironmentChannel.Platform}
    (allExtensions : list (list (list ExtensionEnvironmentChannel.IExtensionDescription))) :
  let merged := JSMap.values (fst (ExtensionEnvironmentChannel.merge allExtensions)) in
  (forall d, In d merged -> In d (List.concat (List.concat allExtensions)))
  /\ (forall x, In x (List.concat (List.concat allExtensions)) ->
        exists d, In d merged
                  /\ ExtensionEnvironmentChannel.toKey d
                     = ExtensionEnvironmentChannel.toKey x).
Proof.
  simpl. rewrite merge_flat.
  destruct (merged_values (List.concat (List.concat allExtensions))) as (_ & Hin & _).
  split.
  - intros d I. apply Hin in I. exact (proj1 (last_with_key_In _ _ _ I)).
  - intros x I.
    destruct (last_with_key_exists _ _ x I eq_refl) as [d E].
    destruct (last_with_key_In _ _ _ E) as [_ K].
    exists d. split; [|exact K]. apply Hin. rewrite K. exact E.
Qed.

Lemma merge_keeps_every_identity_witness :
  exists d,
    In d (JSMap.values
            (fst (@ExtensionEnvironmentChannel.merge (Sample.platform false)
                    [[[Sample.builtin_ext; Sample.builtin_git]];
                     [[Sample.installed_ext]]])))
    /\ @ExtensionEnvironmentChannel.toKey (Sample.platform false) d = "pub.ext".
Proof.
  exact (proj2 (@merge_keeps_every_identity (Sample.platform false)
                  [[[Sample.builtin_ext; Sample.builtin_git]]; [[Sample.installed_ext]]])
               Sample.builtin_ext (or_introl eq_refl)).
Defined.

(** X20.  [scanExtensions] is rejected exactly when the loading of the
    translations is rejected, or the translations are loaded and the scan of
    some root, builtin or installed, is rejected; whenever it is rejected,
    no warning is logged. *)
Theorem scan_rejected_iff
    `{ExtensionEnvironmentChannel.Platform}
    (env : Environment.IEnvironmentService) (locale : string) :
  ((exists e,
       ExtensionEnvironmentChannel.state
         (fst (ExtensionEnvironmentChannel.scanExtensions env locale)) = Rejected e)
   <->
   (exists e,
       ExtensionEnvironmentChannel.state
         (ExtensionEnvironmentChannel.getTranslations locale
            (Environment.userDataPath env)) = Rejected e)
   \/ (exists tr task e,
         ExtensionEnvironmentChannel.state
           (ExtensionEnvironmentChannel.getTranslations locale
              (Environment.userDataPath env)) = Fulfilled tr
         /\ In task (ExtensionEnvironmentChannel.builtinTasks env locale tr
                     ++ ExtensionEnvironmentChannel.installedTasks env locale tr)
         /\ ExtensionEnvironmentChannel.state task = Rejected e))
  /\ ((exists e,
          ExtensionEnvironmentChannel.state
            (fst (ExtensionEnvironmentChannel.scanExtensions env locale)) = Rejected e) ->
      snd (ExtensionEnvironmentChannel.scanExtensions env locale) = []).
Proof.
  split; [split|].
  - intros [e Hr]. unfold ExtensionEnvironmentChannel.scanExtensions in Hr.
    destruct (ExtensionEnvironmentChannel.state
                (ExtensionEnvironmentChannel.getTranslations locale
                   (Environment.userDataPath env))) as [tr|e0] eqn:Ht;
      [|left; exists e0; reflexivity].
    right. exists tr.
    destruct (ExtensionEnvironmentChannel.state
                (ExtensionEnvironmentChannel.Promise_all
                   [ExtensionEnvironmentChannel.scanBuiltin env locale tr;
                    ExtensionEnvironmentChannel.scanInstalled env locale tr]))
      as [all|e1] eqn:Sall.
    + destruct (ExtensionEnvironmentChannel.merge all). discriminate.
    + destruct (Promise_all_rejected _ _ Sall) as (G & IG & SG & _).
      destruct IG as [<-|[<-|[]]].
      * destruct (Promise_all_rejected
                    (ExtensionEnvironmentChannel.builtinTasks env locale tr) _ SG)
          as (task & It & St & _).
        exists task, e1. split; [reflexivity|].
        split; [apply in_or_app; left; exact It | exact St].
      * destruct (Promise_all_rejected
                    (ExtensionEnvironmentChannel.installedTasks env locale tr) _ SG)
          as (task & It & St & _).
        exists task, e1. split; [reflexivity|].
        split; [apply in_or_app; right; exact It | exact St].
  - intros [[e Ht] | (tr & task & e & Ht & It & St)].
    + exists e. unfold ExtensionEnvironmentChannel.scanExtensions. rewrite Ht.
      reflexivity.
    + destruct (scanExtensions_rejected env locale tr task e Ht It St)
        as (culprit & e' & _ & _ & _ & E).
      exists e'. rewrite E. reflexivity.
  - intros [e Hr]. unfold ExtensionEnvironmentChannel.scanExtensions in *.
    destruct (ExtensionEnvironmentChannel.state
                (ExtensionEnvironmentChannel.getTranslations locale
                   (Environment.userDataPath env))) as [tr|e0]; [|reflexivity].
    destruct (ExtensionEnvironmentChannel.state
                (ExtensionEnvironmentChannel.Promise_all
                   [ExtensionEnvironmentChannel.scanBuiltin env locale tr;
                    ExtensionEnvironmentChannel.scanInstalled env locale tr]))
      as [all|e1]; [|reflexivity].
    destruct (ExtensionEnvironmentChannel.merge all). discriminate.
Qed.

(** X21.  [call] with a command other than "getEnvironmentData",
    "getDiagnosticInfo" and "disableTelemetry" is rejected with
    [Error('Invalid call "<command>"')] and leaves the channel as it was. *)
Theorem call_unknown_command
    `{ExtensionEnvironmentChannel.Platform}
    (context : ExtensionEnvironmentChannel.RemoteContext) (command : string)
    (args : option ExtensionEnvironmentChannel.Args)
    (c : ExtensionEnvironmentChannel.t) :
  command <> "getEnvironmentData" ->
  command <> "getDiagnosticInfo" ->
  command <> "disableTelemetry" ->
  ExtensionEnvironmentChannel.call context command args c
  = (Rejected (Error ("Invalid call " ++ ExtensionEnvironmentChannel.quoted command)%string),
     c).
Proof.
  intros N1 N2 N3. unfold ExtensionEnvironmentChannel.call.
  destruct (String.eqb_spec command "getEnvironmentData"); [contradiction|].
  destruct (String.eqb_spec command "getDiagnosticInfo"); [contradiction|].
  destruct (String.eqb_spec command "disableTelemetry"); [contradiction|].
  reflexivity.
Qed.

Lemma call_unknown_command_witness :
  exists msg,
    @ExtensionEnvironmentChannel.call (Sample.platform false)
      {| ExtensionEnvironmentChannel.remoteAuthority := "localhost" |}
      "getEnvironment" None Sample.channel
    = (Rejected (Error msg), Sample.channel).
Proof.
  eexists.
  apply (@call_unknown_command (Sample.platform false)); discriminate.
Defined.

(** X22.  Whatever the command and its arguments, [call] never changes the
    environment or the connection token of the channel, never turns
    telemetry back on, and never removes a logged warning. *)
Theorem call_preserves_channel
    `{ExtensionEnvironmentChannel.Platform}
    (context : ExtensionEnvironmentChannel.RemoteContext) (command : string)
    (args : option ExtensionEnvironmentChannel.Args)
    (c : ExtensionEnvironmentChannel.t) :
  let c' := snd (ExtensionEnvironmentChannel.call context command args c) in
  ExtensionEnvironmentChannel.environment c' = ExtensionEnvironmentChannel.environment c
  /\ ExtensionEnvironmentChannel.connectionToken c'
     = ExtensionEnvironmentChannel.connectionToken c
  /\ (ExtensionEnvironmentChannel.telemetry_enabled c' = true ->
      ExtensionEnvironmentChannel.telemetry_enabled c = true)
  /\ exists more,
       ExtensionEnvironmentChannel.log_warnings c'
       = ExtensionEnvironmentChannel.log_warnings c ++ more.
Proof.
  unfold ExtensionEnvironmentChannel.call.
  destruct (command =? "getEnvironmentData").
  - destruct args as [a|]; simpl.
    + unfold ExtensionEnvironmentChannel.getEnvironmentData.
      destruct (ExtensionEnvironmentChannel.scanExtensions
                  (ExtensionEnvironmentChannel.environment c)
                  (ExtensionEnvironmentChannel.language a)) as [scanned warnings].
      destruct (ExtensionEnvironmentChannel.state scanned); simpl;
        repeat split; auto; exists warnings; reflexivity.
    + repeat split; auto. exists []. rewrite app_nil_r. reflexivity.
  - destruct (command =? "getDiagnosticInfo"); simpl.
    + repeat split; auto. exists []. rewrite app_nil_r. reflexivity.
    + destruct (command =? "disableTelemetry"); simpl.
      * repeat split; try discriminate. exists []. rewrite app_nil_r. reflexivity.
      * repeat split; auto. exists []. rewrite app_nil_r. reflexivity.
Qed.

Lemma call_preserves_channel_witness :
  ExtensionEnvironmentChannel.telemetry_enabled Sample.channel = true.
Proof.
  exact (proj1 (proj2 (proj2
           (@call_preserves_channel (Sample.platform false)
              {| ExtensionEnvironmentChannel.remoteAuthority := "localhost" |}
              "getEnvironmentData"
              (Some {| ExtensionEnvironmentChannel.language := "en" |})
              Sample.channel)))
         eq_refl).
Defined.

(** X23.  The "disableTelemetry" command is fulfilled for every argument,
    turns telemetry off and changes nothing else; issued again it is
    fulfilled again and leaves the channel as the first call left it. *)
Theorem disableTelemetry_idempotent
    (P : ExtensionEnvironmentChannel.Platform)
    (context context' : ExtensionEnvironmentChannel.RemoteContext)
    (args args' : option ExtensionEnvironmentChannel.Args)
    (c : ExtensionEnvironmentChannel.t) :
  let c1 := snd (@ExtensionEnvironmentChannel.call P context "disableTelemetry" args c) in
  fst (@ExtensionEnvironmentChannel.call P context "disableTelemetry" args c)
  = Fulfilled ExtensionEnvironmentChannel.Done
  /\ ExtensionEnvironmentChannel.telemetry_enabled c1 = false
  /\ ExtensionEnvironmentChannel.log_warnings c1
     = ExtensionEnvironmentChannel.log_warnings c
  /\ @ExtensionEnvironmentChannel.call P context' "disableTelemetry" args' c1
     = (Fulfilled ExtensionEnvironmentChannel.Done, c1).
Proof. repeat split. Qed.

(** X24.  The "getEnvironmentData" command: without arguments it is rejected
    with a TypeError and changes nothing; otherwise the warnings of the scan
    are appended to the log, a rejection of [scanExtensions] is the rejection
    of the call, and when [scanExtensions] fulfils the call fulfils with the
    environment record passed through [transformOutgoingURIs] for the
    caller's remote authority.  In that record [extensions] is the merged
    list, [pid] and [os] are those of the process, the token is that of the
    channel, and every path comes from the environment service: application
    root, settings homes, logs, extensions, extension-host logs (the logs path
    joined with "extension-host"), global storage and user home. *)
Theorem getEnvironmentData_result
    `{ExtensionEnvironmentChannel.Platform}
    (context : ExtensionEnvironmentChannel.RemoteContext)
    (a : ExtensionEnvironmentChannel.Args) (c : ExtensionEnvironmentChannel.t) :
  let env := ExtensionEnvironmentChannel.environment c in
  let scan := ExtensionEnvironmentChannel.scanExtensions env
                (ExtensionEnvironmentChannel.language a) in
  let result := ExtensionEnvironmentChannel.call context "getEnvironmentData" (Some a) c in
  (exists msg,
      ExtensionEnvironmentChannel.call context "getEnvironmentData" None c
      = (Rejected (TypeError msg), c))
  /\ ExtensionEnvironmentChannel.log_warnings (snd result)
     = ExtensionEnvironmentChannel.log_warnings c ++ snd scan
  /\ (forall e,
        ExtensionEnvironmentChannel.state (fst scan) = Rejected e ->
        fst result = Rejected e)
  /\ (forall merged,
        ExtensionEnvironmentChannel.state (fst scan) = Fulfilled merged ->
        fst result
        = Fulfilled
            (ExtensionEnvironmentChannel.EnvironmentData
               (ExtensionEnvironmentChannel.transformOutgoingURIs
                  {| ExtensionEnvironmentChannel.pid :=
                       ExtensionEnvironmentChannel.process_pid;
                     ExtensionEnvironmentChannel.env_connectionToken :=
                       ExtensionEnvironmentChannel.connectionToken c;
                     ExtensionEnvironmentChannel.env_appRoot :=
                       Uri.file (Environment.appRoot env);
                     ExtensionEnvironmentChannel.env_appSettingsHome :=
                       Environment.appSettingsHome env;
                     ExtensionEnvironmentChannel.settingsPath :=
                       Environment.machineSettingsHome env;
                     ExtensionEnvironmentChannel.env_logsPath :=
                       Uri.file (Environment.logsPath env);
                     ExtensionEnvironmentChannel.env_extensionsPath :=
                       Uri.file (Environment.extensionsPath env);
                     ExtensionEnvironmentChannel.extensionHostLogsPath :=
                       Uri.file (ExtensionEnvironmentChannel.path_join
                                   (Environment.logsPath env) "extension-host");
                     ExtensionEnvironmentChannel.env_globalStorageHome :=
                       Uri.file (Environment.globalStorageHome env);
                     ExtensionEnvironmentChannel.env_userHome :=
                       Uri.file (Environment.userHome env);
                     ExtensionEnvironmentChannel.extensions := merged;
                     ExtensionEnvironmentChannel.os :=
                       ExtensionEnvironmentChannel.OS |}
                  (ExtensionEnvironmentChannel.remoteAuthority context)))).
Proof.
  intros env scan result. split; [eexists; reflexivity|].
  unfold result, ExtensionEnvironmentChannel.call; simpl.
  unfold ExtensionEnvironmentChannel.getEnvironmentData. fold env. fold scan.
  destruct scan as [scanned warnings]. simpl.
  destruct (ExtensionEnvironmentChannel.state scanned) as [exts|e0]; simpl.
  - split; [reflexivity|]. split; [discriminate|].
    intros merged E. injection E as <-. reflexivity.
  - split; [reflexivity|]. split; [|discriminate].
    intros e E. injection E as <-. reflexivity.
Qed.

Lemma getEnvironmentData_result_witness :
  exists data,
    fst (@ExtensionEnvironmentChannel.call (Sample.platform false)
           {| ExtensionEnvironmentChannel.remoteAuthority := "localhost" |}
           "getEnvironmentData"
           (Some {| ExtensionEnvironmentChannel.language := "en" |})
           Sample.channel)
    = Fulfilled (ExtensionEnvironmentChannel.EnvironmentData data)
    /\ ExtensionEnvironmentChannel.extensions data
       = [Sample.installed_ext; Sample.builtin_git; Sample.extra_theme;
          Sample.shared_lint]
    /\ ExtensionEnvironmentChannel.env_userHome data = Uri.file "/home/coder".
Proof.
  eexists. split.
  - exact (proj2 (proj2 (proj2
             (@getEnvironmentData_result (Sample.platform false)
                {| ExtensionEnvironmentChannel.remoteAuthority := "localhost" |}
                {| ExtensionEnvironmentChannel.language := "en" |}
                Sample.channel)))
             _ eq_refl).
  - split; reflexivity.
Defined.

End EnvironmentChannelProperties.
